(** * Dashboard.py: dimension catalogue, state/category filters and view derivation

    A shallow embedding of the data path of [Dashboard.py]: the six tables read
    from CSV, the valid-value lists [all_states] and [all_categories], the
    filter helper [_f] and the category filter, the reshaped views (heatmap
    pivot, stacked bar, area pivot), the usage-tier binning and the script
    itself, tab by tab, over a store of frames.  Charts (seaborn, matplotlib,
    plotly) only read the tables handed to them; the outcome of a chart call
    is taken as given, except for the heatmap of a table without cells, which
    raises.

    Conventions.
    - A pandas scalar is a [cell]: missing ([NaN]), a string, an integer or a
      float.  A finite float is written as the rational it denotes, in lowest
      terms; comparisons of doubles agree with comparisons of these rationals.
      What depends on the rounding of doubles, the sum of a group of floats
      and the text of a float, is taken as given.
      A column has one dtype, so membership and grouping compare cells of one
      kind: two cells are the same key when they are the same scalar.
    - Strings are byte strings (UTF-8); Python orders [str] by code point, which
      is the byte order of the UTF-8 encoding, i.e. [String.compare].
    - An exception is a value of [exn]; a computation that may raise returns
      [result]. *)

From Stdlib Require Import ZArith QArith Bool.
From Stdlib Require DecimalString DecimalPos DecimalZ.
From stdpp Require Import base option list sorting gmap strings.

#[local] Set Warnings "-clear-no-such-hyp".

(** ** Exceptions and results *)

Inductive exn : Type :=
  | KeyError (key : string)
  | AttributeError (name : string)
  | TypeError
  | ValueError.

Inductive result (A : Type) : Type :=
  | Ok (a : A)
  | Raise (e : exn).
Arguments Ok {A} a.
Arguments Raise {A} e.

Global Instance result_ret : MRet result := λ A a, Ok a.
Global Instance result_bind : MBind result :=
  λ A B f m, match m with Ok a => f a | Raise e => Raise e end.

(** ** Scalars *)

Inductive cell : Type :=
  | NaN
  | Str (s : string)
  | Int (z : Z)
  | Float (q : Q).

Global Instance Q_eq_dec : EqDecision Q.
Proof. solve_decision. Defined.
Global Instance cell_eq_dec : EqDecision cell.
Proof. solve_decision. Defined.
Global Instance exn_eq_dec : EqDecision exn.
Proof. solve_decision. Defined.

Definition is_str (c : cell) : Prop :=
  match c with Str _ => True | _ => False end.
Global Instance is_str_dec c : Decision (is_str c).
Proof. destruct c; simpl; apply _. Defined.
Definition isna (c : cell) : bool :=
  match c with NaN => true | _ => false end.

(** [str(z)] for an integer: decimal digits, with a minus sign when negative. *)
Definition int_str (z : Z) : string :=
  DecimalString.NilZero.string_of_int (Z.to_int z).

(** The numeric value of a cell, when it is a number. *)
Definition num (c : cell) : option Q :=
  match c with
  | Int z => Some (inject_Z z)
  | Float q => Some q
  | _ => None
  end.

Definition Qltb (x y : Q) : bool :=
  match (x ?= y)%Q with Lt => true | _ => false end.

(** Python's [a < b] on the objects a column holds: strings compare with
    strings, numbers with numbers, every comparison with the float [nan] is
    false, and a string against anything else raises [TypeError]. *)
Definition py_lt (a b : cell) : result bool :=
  match a, b with
  | Str s, Str t => Ok (String.ltb s t)
  | Str _, _ | _, Str _ => Raise TypeError
  | _, _ =>
      match num a, num b with
      | Some x, Some y => Ok (Qltb x y)
      | _, _ => Ok false
      end
  end.

Definition str_lt (s t : string) : result bool := Ok (String.ltb s t).

(** ** [sorted]

    Python's [sorted] is a stable comparison sort that only calls [<].  Where
    [<] orders the entries (strings, or numbers without [nan]) its result is
    the one stable ascending arrangement, which is what this stable insertion
    sort returns.  A comparison that raises aborts the sort; in a list that
    holds a string and an entry that is not a string some comparison raises,
    in whatever order the entries are compared. *)
Section py_sorted.
Context {A : Type} (lt : A → A → result bool).

Fixpoint py_insert (x : A) (l : list A) : result (list A) :=
  match l with
  | [] => Ok [x]
  | y :: l' =>
      b ← lt x y;
      if b : bool then Ok (x :: y :: l')
      else l'' ← py_insert x l'; Ok (y :: l'')
  end.

Fixpoint py_sorted_from (acc l : list A) : result (list A) :=
  match l with
  | [] => Ok acc
  | x :: l' => acc' ← py_insert x acc; py_sorted_from acc' l'
  end.

Definition py_sorted (l : list A) : result (list A) := py_sorted_from [] l.
End py_sorted.

(** ** Frames *)

Record row : Type := Row { label : nat; cells : list cell }.
Record DataFrame : Type := Frame { columns : list string; rows : list row }.

Global Instance row_eq_dec : EqDecision row.
Proof. solve_decision. Defined.
Global Instance DataFrame_eq_dec : EqDecision DataFrame.
Proof. solve_decision. Defined.

(** [df.columns.get_loc(col)]: position of the column, [None] when
    [col not in df.columns]. *)
Fixpoint get_loc (col : string) (cols : list string) : option nat :=
  match cols with
  | [] => None
  | c :: cs => if decide (c = col) then Some 0 else S <$> get_loc col cs
  end.

Definition cell_at (i : nat) (r : row) : cell := default NaN (cells r !! i).

(** [df[col]]: the column as a list of cells in row order; [KeyError] when the
    frame has no such column. *)
Definition getitem (df : DataFrame) (col : string) : result (list cell) :=
  match get_loc col (columns df) with
  | Some i => Ok (cell_at i <$> rows df)
  | None => Raise (KeyError col)
  end.

(** [s.isin(values)]: membership of each entry; a missing entry is a member
    only when [values] itself holds a missing entry. *)
Definition isin (s : list cell) (values : list cell) : list bool :=
  (λ c, bool_decide (c ∈ values)) <$> s.

(** [df[mask]]: the rows whose mask entry is [True], labels and order kept. *)
Definition getitem_mask (df : DataFrame) (mask : list bool) : DataFrame :=
  Frame (columns df) (fst <$> List.filter snd (zip (rows df) mask)).

(** [s.dropna()], [s.astype(str)] and [s.unique()] (first occurrences, in
    order).  [float_str] is Python's [str] on a float, which the embedding
    takes as given. *)
Definition dropna (s : list cell) : list cell :=
  List.filter (λ c, negb (isna c)) s.

Section astype.
Variable float_str : Q → string.

Definition astype_str_cell (c : cell) : string :=
  match c with
  | NaN => "nan"
  | Str s => s
  | Int z => int_str z
  | Float q => float_str q
  end.
Definition astype_str (s : list cell) : list string := astype_str_cell <$> s.
End astype.

Fixpoint unique {A} `{EqDecision A} (l : list A) : list A :=
  match l with
  | [] => []
  | x :: l' => x :: List.filter (λ y, bool_decide (y ≠ x)) (unique l')
  end.

(** ** Section 3 of the script: valid values and filters *)

Section catalogue.
Variable float_str : Q → string.

(** [set(df['state_name'].dropna().astype(str).unique())] *)
Definition state_set (df : DataFrame) : result (gset string) :=
  s ← getitem df "state_name";
  Ok (list_to_set (unique (astype_str float_str (dropna s)))).

(** Lines 46-51. *)
Definition all_states (df1 df3 df4 df5 : DataFrame) : result (list string) :=
  s1 ← state_set df1;
  s3 ← state_set df3;
  s4 ← state_set df4;
  s5 ← state_set df5;
  py_sorted str_lt (elements (s1 ∪ s3 ∪ s4 ∪ s5)).
End catalogue.

(** [df.name]: a column read as an attribute.  pandas finds the name among
    the columns; a frame without that column raises [AttributeError].  (The
    names the script reads this way are not attributes of a frame.) *)
Definition getattr (df : DataFrame) (name : string) : result (list cell) :=
  match get_loc name (columns df) with
  | Some i => Ok (cell_at i <$> rows df)
  | None => Raise (AttributeError name)
  end.

(** [sorted] on a list of numbers that holds [nan] beside another entry:
    every comparison with [nan] is false, [<] is no order on the list, and
    the arrangement returned depends on how CPython's list sort detects runs.
    The embedding takes that arrangement as given; like every sort it is a
    rearrangement of the list. *)
Definition list_sort : Type := ∀ l : list cell, {l' : list cell | l' ≡ₚ l}.
Definition nan_among_numbers (l : list cell) : bool :=
  bool_decide (NaN ∈ l) && bool_decide (Forall (λ c, ¬ is_str c) l)
  && bool_decide (1 < length l).
Definition sorted_cells (nan_sort : list_sort) (l : list cell)
    : result (list cell) :=
  if nan_among_numbers l then Ok (proj1_sig (nan_sort l)) else py_sorted py_lt l.

(** Line 59: [sorted(df_cat.category_name.unique())]. *)
Definition all_categories (nan_sort : list_sort) (df_cat : DataFrame)
    : result (list cell) :=
  s ← getattr df_cat "category_name";
  sorted_cells nan_sort (unique s).

(** Lines 65-66.  [selected_states] is the list the sidebar hands back; the
    guard [col in df.columns] and the lookup [df[col]] are one match on
    [getitem]. *)
Definition _f (selected_states : list string) (df : DataFrame)
    (col : string) : DataFrame :=
  match getitem df col with
  | Ok s => getitem_mask df (isin s (Str <$> selected_states))
  | Raise _ => df
  end.

(** Line 69: [df_cat[df_cat.category_name.isin(selected_cats)]]. *)
Definition df_cat_f (selected_cats : list cell) (df_cat : DataFrame)
    : result DataFrame :=
  s ← getattr df_cat "category_name";
  Ok (getitem_mask df_cat (isin s selected_cats)).

(** ** Reshaping: group sums, [unstack], [pivot_table], [pivot] *)

(** Order of the keys of a reshaped result (pandas sorts the factorized keys):
    a missing key first, then numbers by value, then strings. *)
Definition key_leb (a b : cell) : bool :=
  match a, b with
  | NaN, _ => true
  | _, NaN => false
  | Str s, Str t => String.leb s t
  | Str _, _ => false
  | _, Str _ => true
  | _, _ =>
      match num a, num b with
      | Some x, Some y => negb (Qltb y x)
      | _, _ => true
      end
  end.
Definition key_le (a b : cell) : Prop := key_leb a b.
Definition sort_keys (ks : list cell) : list cell := merge_sort key_le (unique ks).

(** int64 addition wraps around. *)
Definition wrap64 (z : Z) : Z := ((z + 2 ^ 63) mod 2 ^ 64 - 2 ^ 63)%Z.

Definition is_int (c : cell) : bool :=
  match c with Int _ => true | _ => false end.
Definition is_float (c : cell) : bool :=
  match c with Float _ => true | _ => false end.
(** The numbers among the entries, as the doubles they are or convert to. *)
Definition numbers (vs : list cell) : list Q := omap num vs.

Abbreviation key2 := (cell * cell)%type.

Section group_sum.
(** The sum of the doubles of a float64 group, in row order, as pandas
    computes it: a double.  The rounding is outside the embedding, which
    takes the sum of a list of doubles as given. *)
Variable float_sum : list Q → Q.

(** [a + b] on int64, with wrap-around, and on the objects of an object
    column: [str] concatenates, a string with anything else raises, two
    floats add to a double. *)
Definition cell_add (a b : cell) : result cell :=
  match a, b with
  | Int x, Int y => Ok (Int (wrap64 (x + y)))
  | Str s, Str t => Ok (Str (s +:+ t))
  | Str _, _ | _, Str _ => Raise TypeError
  | _, _ =>
      match num a, num b with
      | Some x, Some y => Ok (Float (float_sum [x; y]))
      | _, _ => Ok NaN
      end
  end.

Fixpoint sum_from (acc : cell) (vs : list cell) : result cell :=
  match vs with
  | [] => Ok acc
  | v :: vs' => acc' ← cell_add acc v; sum_from acc' vs'
  end.

(** [sum] of one group: missing entries are skipped and the rest are added
    in row order.  A float64 group (numbers, one of them a float) is summed
    as doubles; an int64 group is added to an accumulator that starts at 0;
    an object group starts from its first entry.  A group with nothing left
    is a float64 group and sums to 0.0. *)
Definition agg_sum (vs : list cell) : result cell :=
  match dropna vs with
  | [] => Ok (Float 0)
  | v :: vs' =>
      if forallb (λ c, bool_decide (¬ is_str c)) (v :: vs')
         && existsb is_float (v :: vs')
      then Ok (Float (float_sum (numbers (v :: vs'))))
      else if forallb is_int (v :: vs') then sum_from (Int 0) (v :: vs')
      else sum_from v vs'
  end.

(** The value columns of a groupby, gathered in one pass over the rows: each
    row is appended to the group of its key pair, a new pair opens a group. *)
Fixpoint group_add (k : key2) (v : cell) (gs : list (key2 * list cell))
    : list (key2 * list cell) :=
  match gs with
  | [] => [(k, [v])]
  | (k', vs) :: gs' =>
      if decide (k' = k) then (k', vs ++ [v]) :: gs'
      else (k', vs) :: group_add k v gs'
  end.

(** [groupby] drops the rows with a missing key. *)
Definition group_step (gs : list (key2 * list cell)) (t : key2 * cell)
    : list (key2 * list cell) :=
  if isna t.1.1 || isna t.1.2 then gs else group_add t.1 t.2 gs.
Definition groupby (ts : list (key2 * cell)) : list (key2 * list cell) :=
  foldl group_step [] ts.

Fixpoint agg_all (gs : list (key2 * list cell)) : result (list (key2 * cell)) :=
  match gs with
  | [] => Ok []
  | (k, vs) :: gs' => v ← agg_sum vs; rest ← agg_all gs'; Ok ((k, v) :: rest)
  end.

Fixpoint assoc {V} (k : key2) (l : list (key2 * V)) : option V :=
  match l with
  | [] => None
  | (k', v) :: l' => if decide (k' = k) then Some v else assoc k l'
  end.

(** A reshaped table: row keys, column keys and the cells, row by row. *)
Record Grid : Type :=
  { grid_index : list cell; grid_columns : list cell; grid_values : list (list cell) }.

Definition upcast (c : cell) : cell :=
  match c with Int z => Float (inject_Z z) | _ => c end.

(** [s.unstack(fill_value)] of a series keyed by pairs: the first keys become
    the index and the second keys the columns, both sorted; a pair that is
    absent gets [fill_value], or [NaN] when none is given.  An absent pair
    turns an int64 block into float64: with [NaN] every cell is converted
    ([unstack_conv]), with the fill value [0] the block keeps its dtype and
    the fill value takes it ([unstack_fill]). *)
Definition unstack_full (s : list (key2 * cell)) : bool :=
  forallb (λ r, forallb (λ c, bool_decide (is_Some (assoc (r, c) s)))
                  (sort_keys (s.*1.*2)))
    (sort_keys (s.*1.*1)).
Definition unstack_conv (fill_value : option cell) (s : list (key2 * cell))
    : cell → cell :=
  match fill_value with
  | None => if unstack_full s then id else upcast
  | Some _ => id
  end.
Definition unstack_fill (fill_value : option cell) (s : list (key2 * cell)) : cell :=
  match fill_value with
  | None => NaN
  | Some f => if existsb is_float (s.*2) then upcast f else f
  end.
Definition unstack (fill_value : option cell) (s : list (key2 * cell)) : Grid :=
  let idx := sort_keys (s.*1.*1) in
  let cols := sort_keys (s.*1.*2) in
  {| grid_index := idx; grid_columns := cols;
     grid_values :=
       (λ r, (λ c, from_option (unstack_conv fill_value s)
                     (unstack_fill fill_value s) (assoc (r, c) s)) <$> cols)
       <$> idx |}.

(** The cell of a grid at a row key and a column key. *)
Fixpoint index_of (k : cell) (ks : list cell) : option nat :=
  match ks with
  | [] => None
  | k' :: ks' => if decide (k' = k) then Some 0 else S <$> index_of k ks'
  end.
Definition grid_at (g : Grid) (r c : cell) : option cell :=
  i ← index_of r (grid_index g);
  j ← index_of c (grid_columns g);
  line ← grid_values g !! i;
  line !! j.

(** The three columns a reshape reads, as (row key, column key, value). *)
Definition triples (i c v : list cell) : list (key2 * cell) := zip (zip i c) v.

(** Lines 106-107:
    [df.pivot_table(index=, columns=, values=, aggfunc="sum")].  pandas checks
    the value column first, groups by (index, columns), sums, and unstacks the
    column key without a fill value.  Its last step drops the columns that
    hold nothing but [NaN]; a sum is never [NaN], so every column of the grid
    has a cell and none is dropped. *)
Definition pivot_table (df : DataFrame) (index columns values : string)
    : result Grid :=
  v ← getitem df values;
  i ← getitem df index;
  c ← getitem df columns;
  agg ← agg_all (groupby (triples i c v));
  Ok (unstack None agg).

(** Lines 117-118:
    [df.groupby([by1, by2])[values].sum().unstack(fill_value=0)]: [by1] is the
    index of the result and [by2] its columns. *)
Definition groupby_sum_unstack (df : DataFrame) (by1 by2 values : string)
    : result Grid :=
  i ← getitem df by1;
  c ← getitem df by2;
  v ← getitem df values;
  agg ← agg_all (groupby (triples i c v));
  Ok (unstack (Some (Int 0)) agg).
End group_sum.

(** Line 222: [df.pivot(index=, columns=, values=)].  No aggregation: a key
    pair that occurs twice raises [ValueError] ("Index contains duplicate
    entries, cannot reshape"); missing keys are kept. *)
Definition pivot (df : DataFrame) (index columns values : string)
    : result Grid :=
  i ← getitem df index;
  c ← getitem df columns;
  v ← getitem df values;
  let s := triples i c v in
  if decide (NoDup (s.*1)) then Ok (unstack None s) else Raise ValueError.

(** ** Binning: [pd.cut(x, bins, labels=...)] with the default [right=True] *)

(** [bins.searchsorted(x, side="left")] on edges that do not decrease: the
    number of edges below [x]. *)
Fixpoint searchsorted_left (bins : list Q) (x : Q) : nat :=
  match bins with
  | [] => 0
  | b :: bins' => if Qltb b x then S (searchsorted_left bins' x) else 0
  end.

Fixpoint increasing (bins : list Q) : bool :=
  match bins with
  | a :: (b :: _) as bins' => Qltb a b && increasing bins'
  | _ => true
  end.

(** [bins.is_monotonic_increasing]: no edge is below the one before it. *)
Fixpoint non_decreasing (bins : list Q) : bool :=
  match bins with
  | a :: (b :: _) as bins' => negb (Qltb b a) && non_decreasing bins'
  | _ => true
  end.

(** One entry: [ids] is the insertion position; positions [0] (at or below
    the first edge) and [len(bins)] (above the last edge) and missing entries
    give [NaN], any other position [ids] gives [labels[ids - 1]].  A string
    cannot be compared with an edge; without edges nothing is compared and
    the position is [0]. *)
Definition cut_cell (bins : list Q) (labels : list string) (c : cell)
    : result cell :=
  match c with
  | NaN => Ok NaN
  | Str _ => match bins with [] => Ok NaN | _ :: _ => Raise TypeError end
  | Int z => let ids := searchsorted_left bins (inject_Z z) in
      Ok (if decide (ids = 0 ∨ ids = length bins) then NaN
          else from_option Str NaN (labels !! (ids - 1)))
  | Float q => let ids := searchsorted_left bins q in
      Ok (if decide (ids = 0 ∨ ids = length bins) then NaN
          else from_option Str NaN (labels !! (ids - 1)))
  end.

Fixpoint cut_cells (bins : list Q) (labels : list string) (s : list cell)
    : result (list cell) :=
  match s with
  | [] => Ok []
  | c :: s' => t ← cut_cell bins labels c; ts ← cut_cells bins labels s'; Ok (t :: ts)
  end.

(** [cut] rejects edges that decrease somewhere ("bins must increase
    monotonically"), then edges that repeat unless there are exactly two of
    them ("Bin edges must be unique"), then bins the entries, then rejects
    labels that repeat or are not one fewer than the edges.  Among edges that
    do not decrease, none repeats exactly when they are [increasing]. *)
Definition cut (s : list cell) (bins : list Q) (labels : list string)
    : result (list cell) :=
  if negb (non_decreasing bins) then Raise ValueError
  else if negb (increasing bins) && negb (length bins =? 2) then Raise ValueError
  else
    ts ← cut_cells bins labels s;
    if decide (NoDup labels ∧ length labels + 1 = length bins) then Ok ts
    else Raise ValueError.

(** Lines 176-177.  The float literals [.1], [.2], [.3] denote these doubles. *)
Definition usage_bins : list Q :=
  [ 0; 3602879701896397 # 36028797018963968;
       3602879701896397 # 18014398509481984;
       5404319552844595 # 18014398509481984 ]%Q.
Definition usage_labels : list string := ["Low"; "Medium"; "High"].

(** ** Derived columns and sorting *)

(** [df[col] = values]: replaces the column when the frame has it, appends it
    otherwise. *)
Definition setitem (df : DataFrame) (col : string) (vals : list cell) : DataFrame :=
  match get_loc col (columns df) with
  | Some i =>
      Frame (columns df)
        (zip_with (λ r v, Row (label r) (<[i := v]> (cells r))) (rows df) vals)
  | None =>
      Frame (columns df ++ [col])
        (zip_with (λ r v, Row (label r) (cells r ++ [v])) (rows df) vals)
  end.

(** Order used by [sort_values]: numbers by value, then strings, missing
    entries last in either direction. *)
Definition sort_cmp (ascending : bool) (a b : cell) : comparison :=
  let dir (c : comparison) := if ascending then c else CompOpp c in
  match a, b with
  | NaN, NaN => Eq
  | NaN, _ => Gt
  | _, NaN => Lt
  | Str s, Str t => dir (String.compare s t)
  | Str _, _ => dir Gt
  | _, Str _ => dir Lt
  | _, _ =>
      match num a, num b with
      | Some x, Some y => dir (x ?= y)%Q
      | _, _ => Eq
      end
  end.

Fixpoint rows_cmp (ascending : bool) (by_ : list nat) (r1 r2 : row) : comparison :=
  match by_ with
  | [] => Eq
  | i :: by' =>
      match sort_cmp ascending (cell_at i r1) (cell_at i r2) with
      | Eq => rows_cmp ascending by' r1 r2
      | c => c
      end
  end.
Definition rows_le (ascending : bool) (by_ : list nat) (r1 r2 : row) : Prop :=
  rows_cmp ascending by_ r1 r2 ≠ Gt.

Fixpoint get_locs (cols : list string) (by_ : list string) : result (list nat) :=
  match by_ with
  | [] => Ok []
  | c :: by' =>
      match get_loc c cols with
      | Some i => ps ← get_locs cols by'; Ok (i :: ps)
      | None => Raise (KeyError c)
      end
  end.

(** Rows that tie on every sort column keep the order they had: a row is
    placed before the first later row that it is not above. *)
Fixpoint insert_row (ascending : bool) (ps : list nat) (r : row) (l : list row)
    : list row :=
  match l with
  | [] => [r]
  | r' :: l' =>
      match rows_cmp ascending ps r r' with
      | Gt => r' :: insert_row ascending ps r l'
      | _ => r :: r' :: l'
      end
  end.
Definition stable_sort (ascending : bool) (ps : list nat) (l : list row)
    : list row :=
  foldr (insert_row ascending ps) [] l.

(** [df.sort_values(by, ascending=...)]: a new frame with the rows reordered. *)
Definition sort_values (df : DataFrame) (by_ : list string) (ascending : bool)
    : result DataFrame :=
  ps ← get_locs (columns df) by_;
  Ok (Frame (columns df) (stable_sort ascending ps (rows df))).

(** Line 220: [df["year"].astype(str) + "-Q" + df["quarter"].astype(str)]. *)
Definition time_key (float_str : Q → string) (year quarter : cell) : cell :=
  Str (astype_str_cell float_str year +:+ "-Q" +:+ astype_str_cell float_str quarter).
Definition time_column (float_str : Q → string) (df : DataFrame)
    : result (list cell) :=
  y ← getitem df "year";
  q ← getitem df "quarter";
  Ok (zip_with (time_key float_str) y q).

(** ** The script over a store of frames

    A frame is a mutable object: the store maps references to frames, a name
    of the script holds a reference.  [new] allocates, [store_setitem] writes
    through a reference, so two names bound to one reference see the same
    frame.  A run returns the store it reached also when it raises. *)

Abbreviation store := (list DataFrame).
Definition M (A : Type) : Type := store → result A * store.

Global Instance M_ret : MRet M := λ A a σ, (Ok a, σ).
Global Instance M_bind : MBind M :=
  λ A B f m σ,
    match m σ with
    | (Ok a, σ') => f a σ'
    | (Raise e, σ') => (Raise e, σ')
    end.

Definition lift {A} (x : result A) : M A := λ σ, (x, σ).
Definition new (df : DataFrame) : M nat := λ σ, (Ok (length σ), σ ++ [df]).
(** References are never dangling; the default is not reached. *)
Definition deref (r : nat) : M DataFrame := λ σ, (Ok (default (Frame [] []) (σ !! r)), σ).
Definition store_setitem (r : nat) (col : string) (vals : list cell) : M unit :=
  λ σ, (Ok (), alter (λ df, setitem df col vals) r σ).

(** [df.copy()] *)
Definition copy (r : nat) : M nat := df ← deref r; new df.

(** [_f] on objects: a new frame when the column is there, otherwise the very
    object it was given. *)
Definition _f_obj (selected_states : list string) (r : nat) (col : string) : M nat :=
  df ← deref r;
  if decide (is_Some (get_loc col (columns df)))
  then new (_f selected_states df col)
  else mret r.

(** Lines 219-222 on values: the area view of the filtered insurance table. *)
Definition area_view (float_str : Q → string) (df3_f : DataFrame) : result Grid :=
  time ← time_column float_str df3_f;
  let df_area := setitem df3_f "time" time in
  df_area ← sort_values df_area ["state_name"; "year"; "quarter"] true;
  pivot df_area "time" "state_name" "total_value".

(** The names of the script that hold tables or reshaped views. *)
Record namespace : Type :=
  { df1 : nat; df2 : nat; df3 : nat; df4 : nat; df5 : nat; df_cat : nat;
    selected_states : list string; selected_cats : list cell;
    df1_f : nat; df3_f : nat; df4_f : nat; df5_f : nat; df_cat_f' : nat;
    pivot' : Grid; df_stacked : Grid;
    df2_sb : nat; df_area : nat; pivot_val : Grid }.

(** ** Charts

    The chart libraries (seaborn, matplotlib, plotly, the plot accessor of
    pandas) read the table they are handed and draw; they write to no frame.
    Whether a call raises is decided inside the library: the embedding takes
    the outcome of each call as given, a call on a table being named by the
    source line where it starts. *)
Record charts : Type :=
  { (** a chart of a frame *)
    draw_frame : nat → DataFrame → result unit;
    (** a chart of a reshaped table *)
    draw_grid : nat → Grid → result unit;
    (** lines 165-168: [ax.pie(sizes, ...)] and [ax.legend(wedges, labels, ...)] *)
    draw_pie : list cell → list cell → result unit;
    (** lines 268-269: [ax.text] for one row of [iterrows] *)
    draw_text : list string → row → result unit }.

(** Line 109: [sns.heatmap(pivot, ...)].  seaborn takes the colour range from
    the smallest and the largest cell ([np.nanmin], [np.nanmax]); on a table
    without cells the reduction has nothing to reduce and raises
    [ValueError]. *)
Definition heatmap (ui : charts) (data : Grid) : result unit :=
  if bool_decide (grid_index data = [] ∨ grid_columns data = [])
  then Raise ValueError
  else draw_grid ui 109 data.

(** [row.name] on a row of [iterrows]: the entry of that column,
    [AttributeError] when the frame has no such column. *)
Definition row_getattr (cols : list string) (r : row) (name : string)
    : result cell :=
  match get_loc name cols with
  | Some i => Ok (cell_at i r)
  | None => Raise (AttributeError name)
  end.

(** Lines 268-269, for one row: the three fields are read, then the label is
    drawn. *)
Definition annotate (ui : charts) (cols : list string) (r : row) : result unit :=
  _ ← row_getattr cols r "total_registered_users";
  _ ← row_getattr cols r "total_app_opens";
  _ ← row_getattr cols r "state_name";
  draw_text ui cols r.

Fixpoint for_each {A} (f : A → result unit) (l : list A) : result unit :=
  match l with
  | [] => Ok ()
  | x :: l' => _ ← f x; for_each f l'
  end.

Section script.
Variable float_str : Q → string.
Variable float_sum : list Q → Q.
Variable nan_sort : list_sort.
Variable ui : charts.
(** The six CSV files as read by [pd.read_csv]. *)
Variables csv1 csv2 csv3 csv4 csv5 csv_cat : DataFrame.
(** What the two sidebar widgets return for the options they are given. *)
Variable multiselect_states : list string → list string.
Variable multiselect_cats : list cell → list cell.

(** Lines 78-122: two line charts, the heatmap pivot and the stacked bar. *)
Definition tab_transactions (df1_f : nat) : M (Grid * Grid) :=
  t ← deref df1_f;
  _ ← lift (draw_frame ui 86 t);
  t ← deref df1_f;
  _ ← lift (draw_frame ui 97 t);
  t ← deref df1_f;
  pivot' ← lift (pivot_table float_sum t "state_name" "quarter"
                   "total_transactions");
  _ ← lift (heatmap ui pivot');
  t ← deref df1_f;
  df_stacked ← lift (groupby_sum_unstack float_sum t "quarter" "state_name"
                       "total_amount");
  _ ← lift (draw_grid ui 119 df_stacked);
  mret (pivot', df_stacked).

(** Lines 125-133: the category trend. *)
Definition tab_categories (df_cat_f : nat) : M unit :=
  t ← deref df_cat_f;
  lift (draw_frame ui 129 t).

(** Lines 136-181: the sorted bar, the usage bar, the pie and the sunburst
    table. *)
Definition tab_devices (df2 : nat) : M nat :=
  t ← deref df2;
  s ← lift (sort_values t ["total_registered_users"] false);
  _ ← new s;
  _ ← lift (draw_frame ui 144 s);
  t ← deref df2;
  _ ← lift (draw_frame ui 155 t);
  t ← deref df2;
  sizes ← lift (getitem t "total_registered_users");
  t ← deref df2;
  labels ← lift (getitem t "brand");
  _ ← lift (draw_pie ui sizes labels);
  df2_sb ← copy df2;
  t ← deref df2_sb;
  u ← lift (getitem t "avg_percentage_usage");
  tiers ← lift (cut u usage_bins usage_labels);
  _ ← store_setitem df2_sb "usage_tier" (Str <$> astype_str float_str tiers);
  t ← deref df2_sb;
  _ ← lift (draw_frame ui 178 t);
  mret df2_sb.

(** Lines 184-234: three line charts, the area chart table and a bar chart. *)
Definition tab_insurance (df3_f : nat) : M (nat * Grid) :=
  t ← deref df3_f;
  _ ← lift (draw_frame ui 192 t);
  t ← deref df3_f;
  _ ← lift (draw_frame ui 202 t);
  t ← deref df3_f;
  _ ← lift (draw_frame ui 211 t);
  df_area ← copy df3_f;
  t ← deref df_area;
  time ← lift (time_column float_str t);
  _ ← store_setitem df_area "time" time;
  t ← deref df_area;
  s ← lift (sort_values t ["state_name"; "year"; "quarter"] true);
  df_area ← new s;
  t ← deref df_area;
  pivot_val ← lift (pivot t "time" "state_name" "total_value");
  _ ← lift (draw_grid ui 224 pivot_val);
  t ← deref df3_f;
  _ ← lift (draw_frame ui 231 t);
  mret (df_area, pivot_val).

(** Lines 237-254: the sorted growth bar and the bubble chart. *)
Definition tab_growth (df4_f : nat) : M unit :=
  t ← deref df4_f;
  s ← lift (sort_values t ["growth_percent"] false);
  _ ← new s;
  _ ← lift (draw_frame ui 243 s);
  t ← deref df4_f;
  lift (draw_frame ui 250 t).

(** Lines 257-278: the scatter plot, the state labels and the bubble chart. *)
Definition tab_engagement (df5_f : nat) : M unit :=
  t ← deref df5_f;
  _ ← lift (draw_frame ui 263 t);
  t ← deref df5_f;
  _ ← lift (for_each (annotate ui (columns t)) (rows t));
  t ← deref df5_f;
  lift (draw_frame ui 274 t).

(** Sections 3 and 4 of the script, on the six loaded tables. *)
Definition sidebar_and_tabs (df1 df2 df3 df4 df5 df_cat : nat) : M namespace :=
  (* 3. sidebar filters *)
  t1 ← deref df1; t3 ← deref df3; t4 ← deref df4; t5 ← deref df5;
  all_states ← lift (all_states float_str t1 t3 t4 t5);
  let selected_states := multiselect_states all_states in
  tc ← deref df_cat;
  all_categories ← lift (all_categories nan_sort tc);
  let selected_cats := multiselect_cats all_categories in
  df1_f ← _f_obj selected_states df1 "state_name";
  df3_f ← _f_obj selected_states df3 "state_name";
  df4_f ← _f_obj selected_states df4 "state_name";
  df5_f ← _f_obj selected_states df5 "state_name";
  tc ← deref df_cat;
  tcf ← lift (df_cat_f selected_cats tc);
  df_cat_f ← new tcf;
  (* 4. tabs *)
  '(pivot', df_stacked) ← tab_transactions df1_f;
  _ ← tab_categories df_cat_f;
  df2_sb ← tab_devices df2;
  '(df_area, pivot_val) ← tab_insurance df3_f;
  _ ← tab_growth df4_f;
  _ ← tab_engagement df5_f;
  mret {| df1 := df1; df2 := df2; df3 := df3; df4 := df4; df5 := df5;
          df_cat := df_cat;
          selected_states := selected_states; selected_cats := selected_cats;
          df1_f := df1_f; df3_f := df3_f; df4_f := df4_f; df5_f := df5_f;
          df_cat_f' := df_cat_f;
          pivot' := pivot'; df_stacked := df_stacked;
          df2_sb := df2_sb; df_area := df_area; pivot_val := pivot_val |}.

(** The script: section 2 loads the six tables, then the rest runs. *)
Definition dashboard : M namespace :=
  df1 ← new csv1;
  df2 ← new csv2;
  df3 ← new csv3;
  df4 ← new csv4;
  df5 ← new csv5;
  df_cat ← new csv_cat;
  sidebar_and_tabs df1 df2 df3 df4 df5 df_cat.
End script.

(** ** Definitions used to state the properties *)

(** The union of the state sets of a list of tables, in list order. *)
Fixpoint state_union (float_str : Q → string) (dfs : list DataFrame)
    : result (gset string) :=
  match dfs with
  | [] => Ok ∅
  | df :: dfs' =>
      s ← state_set float_str df; u ← state_union float_str dfs'; Ok (s ∪ u)
  end.

(** A cell is one of the selected strings. *)
Definition selected (S : list string) (c : cell) : bool :=
  bool_decide (c ∈ Str <$> S).

(** The reshaped table with no row key and no column key. *)
Definition empty_grid : Grid :=
  {| grid_index := []; grid_columns := []; grid_values := [] |}.

(** Example tables. *)
Definition ex_missing_state : DataFrame :=
  Frame ["state_name"; "year"; "total_amount"]
    [Row 0 [Str "Goa"; Int 2023; Int 10]; Row 1 [NaN; Int 2023; Int 7]].
Definition ex_missing_category : DataFrame :=
  Frame ["category_name"; "year"; "amount"] [Row 0 [NaN; Int 2023; Int 10]].
Definition ex_mixed_category : DataFrame :=
  Frame ["category_name"; "year"; "amount"]
    [Row 0 [Str "Recharge"; Int 2023; Int 10]; Row 1 [NaN; Int 2023; Int 7]].
Definition ex_states : DataFrame :=
  Frame ["state_name"; "year"; "quarter"; "total_transactions"; "total_amount"]
    [Row 0 [Str "Goa"; Int 2023; Int 4; Int 5; Int 50];
     Row 1 [Str "Assam"; Int 2024; Int 1; Int 7; Int 70];
     Row 2 [Str "Goa"; Int 2024; Int 1; Int 9; Int 90]].
Definition ex_categories : DataFrame :=
  Frame ["category_name"; "year"; "amount"]
    [Row 0 [Str "Recharge"; Int 2023; Int 10];
     Row 1 [Str "Financial"; Int 2023; Int 7]].
Definition ex_devices : DataFrame :=
  Frame ["brand"; "total_registered_users"; "avg_percentage_usage"]
    [Row 0 [Str "Xiaomi"; Int 100; Float (3602879701896397 # 36028797018963968)];
     Row 1 [Str "Vivo"; Int 80; Float (1 # 4)]].

(** [preserves n m Q]: run from any store with at least [n] objects, [m]
    leaves the first [n] objects as they are, and a value it returns
    satisfies [Q]. *)
Definition preserves (n : nat) {A} (m : M A) (Q : A → Prop) : Prop :=
  ∀ σ : store, n ≤ length σ →
    take n (m σ).2 = take n σ ∧ n ≤ length (m σ).2 ∧
    ∀ a, (m σ).1 = Ok a → Q a.

(** The values of the rows whose key pair is [k], in row order. *)
Definition vals_of (k : key2) (ts : list (key2 * cell)) : list cell :=
  (List.filter (λ t, bool_decide (t.1 = k)) ts).*2.


(** A key pair without a missing component. *)
Definition valid_key (k : key2) : Prop := isna k.1 = false ∧ isna k.2 = false.


(** Every row has one cell per column, as in any frame [read_csv] returns. *)
Definition wf_frame (df : DataFrame) : Prop :=
  Forall (λ r, length (cells r) = length (columns df)) (rows df).

(** The display string of a year and a quarter held as integers. *)
Definition time_label (y q : Z) : string := int_str y +:+ "-Q" +:+ int_str q.

(** The label of rank [r] among four-digit years and one-digit quarters:
    rank 0 is 1000-Q0, rank 10 is 1001-Q0. *)
Definition ranked_label (r : Z) : string :=
  time_label (1000 + r / 10) (r mod 10).
Fixpoint labels_ascend (r : Z) (n : nat) : bool :=
  match n with
  | 0 => true
  | S n' =>
      String.ltb (ranked_label r) (ranked_label (r + 1)) && labels_ascend (r + 1) n'
  end.

(** Quarters 2 and 10 of one year, for one state. *)
Definition ex_quarters : DataFrame :=
  Frame ["state_name"; "year"; "quarter"; "total_value"]
    [Row 0 [Str "Goa"; Int 2023; Int 2; Int 5];
     Row 1 [Str "Goa"; Int 2023; Int 10; Int 7]].
Definition ex_insurance : DataFrame :=
  Frame ["state_name"; "year"; "quarter"; "total_value"]
    [Row 0 [Str "Goa"; Int 2024; Int 1; Int 5];
     Row 1 [Str "Goa"; Int 2023; Int 4; Int 7]].

Definition ex_growth : DataFrame :=
  Frame ["state_name"; "previous_tx"; "current_tx"; "growth"; "growth_percent"]
    [Row 0 [Str "Goa"; Int 10; Int 15; Int 5; Int 50];
     Row 1 [Str "Assam"; Int 20; Int 25; Int 5; Int 25]].
Definition ex_engagement : DataFrame :=
  Frame ["state_name"; "total_registered_users"; "total_app_opens"]
    [Row 0 [Str "Goa"; Int 100; Int 900]; Row 1 [Str "Assam"; Int 200; Int 700]].

(** The area view of [ex_insurance]. *)
Definition ex_insurance_view : Grid :=
  {| grid_index := [Str "2023-Q4"; Str "2024-Q1"];
     grid_columns := [Str "Goa"];
     grid_values := [[Int 7]; [Int 5]] |}.


(** Stand-ins for what the embedding takes as given, used at the example
    tables, where no floats are summed and no [nan] is sorted among other
    numbers: a summation, a sort that leaves a list as it is, and chart
    calls that return. *)
Definition exact_sum (qs : list Q) : Q := Qred (foldr Qplus 0%Q qs).
Definition keep_order : list_sort := λ l, exist _ l (Permutation_refl l).
Definition charts_return : charts :=
  {| draw_frame := λ _ _, Ok (); draw_grid := λ _ _, Ok ();
     draw_pie := λ _ _, Ok (); draw_text := λ _ _, Ok () |}.

(** ** Definitions used to state further properties *)

(** Whether [_f] keeps a row: its entry in [col] is selected, or the table
    has no such column. *)
Definition keeps_row (S : list string) (df : DataFrame) (col : string) (r : row)
    : bool :=
  match get_loc col (columns df) with
  | Some i => selected S (cell_at i r)
  | None => true
  end.

(** The table has a column of that name. *)
Definition has_column (col : string) (df : DataFrame) : Prop := col ∈ columns df.

(** The cells are all strings, or none of them is. *)
Definition one_kind (l : list cell) : Prop :=
  Forall is_str l ∨ Forall (λ c, ¬ is_str c) l.


(** The shape of a reshaped table: one line per row key, one cell per column
    key in every line, keys in ascending order without repetition. *)
Definition grid_shape (g : Grid) : Prop :=
  length (grid_values g) = length (grid_index g) ∧
  Forall (λ line, length line = length (grid_columns g)) (grid_values g) ∧
  Sorted key_le (grid_index g) ∧ NoDup (grid_index g) ∧
  Sorted key_le (grid_columns g) ∧ NoDup (grid_columns g).

(** Whether a character occurs in a string; [letter_Q] is the "Q" of the
    separator "-Q". *)
Fixpoint mentions (a : Ascii.ascii) (s : string) : bool :=
  match s with
  | EmptyString => false
  | String c s' => Ascii.eqb c a || mentions a s'
  end.
Definition letter_Q : Ascii.ascii :=
  Ascii.Ascii true false false false true false true false.

(** * Properties *)

(** ** Results and [sorted] *)

Lemma bind_Ok {A B} (m : result A) (f : A → result B) b :
  m ≫= f = Ok b ↔ ∃ a, m = Ok a ∧ f a = Ok b.
Proof.
  destruct m as [a|e]; simpl; split.
  - eauto.
  - by intros (a' & [= ->] & ?).
  - done.
  - by intros (a' & ? & ?).
Qed.

Section py_sorted_facts.
Context {A : Type} (lt : A → A → result bool).

Lemma py_insert_perm x l l' : py_insert lt x l = Ok l' → l' ≡ₚ x :: l.
Proof.
  revert l'. induction l as [|y l IH]; intros l'; simpl.
  - by intros [= <-].
  - destruct (lt x y) as [[]|]; simpl; [by intros [= <-]| |done].
    destruct (py_insert lt x l) as [l''|]; simpl; [|done].
    intros [= <-]. rewrite (IH l'' eq_refl). apply Permutation_swap.
Qed.

Lemma py_sorted_from_perm acc l l' :
  py_sorted_from lt acc l = Ok l' → l' ≡ₚ acc ++ l.
Proof.
  revert acc l'. induction l as [|x l IH]; intros acc l'; simpl.
  - intros [= <-]. by rewrite app_nil_r.
  - destruct (py_insert lt x acc) as [acc'|] eqn:Hi; simpl; [|done].
    intros ->%IH. rewrite (py_insert_perm _ _ _ Hi).
    simpl. apply Permutation_middle.
Qed.

Lemma py_sorted_perm l l' : py_sorted lt l = Ok l' → l' ≡ₚ l.
Proof. apply py_sorted_from_perm. Qed.
End py_sorted_facts.

Lemma sorted_cells_perm nan_sort l l' :
  sorted_cells nan_sort l = Ok l' → l' ≡ₚ l.
Proof.
  unfold sorted_cells. destruct (nan_among_numbers l).
  - intros [= <-]. apply (proj2_sig (nan_sort l)).
  - apply py_sorted_perm.
Qed.

(** ** Order on strings *)

Definition str_below (s t : string) : Prop := String.ltb s t = true.

Lemma ltb_leb s t : String.ltb s t = true → String.le s t.
Proof.
  unfold String.le, String.ltb, String.leb.
  destruct (String.compare s t); simpl; done.
Qed.

Lemma ltb_false_leb s t : String.ltb s t = false → String.le t s.
Proof.
  unfold String.le, String.ltb, String.leb.
  rewrite (String.compare_antisym t s).
  destruct (String.compare s t); simpl; done.
Qed.

Lemma le_ne_ltb s t : String.le s t → s ≠ t → str_below s t.
Proof.
  unfold str_below, String.le, String.ltb, String.leb.
  destruct (String.compare s t) eqn:Hc; simpl; try done.
  apply String.compare_eq_iff in Hc. done.
Qed.

Lemma compare_refl s : String.compare s s = Eq.
Proof.
  pose proof (String.compare_antisym s s) as H.
  destruct (String.compare s s); simpl in H; done.
Qed.

Lemma str_below_irrefl s : ¬ str_below s s.
Proof. unfold str_below, String.ltb. by rewrite compare_refl. Qed.

Lemma py_insert_str x l :
  StronglySorted String.le l →
  ∃ l', py_insert str_lt x l = Ok l' ∧ StronglySorted String.le l'.
Proof.
  induction 1 as [|y l Hl IH Hy]; simpl.
  - eexists; split; [done|]. repeat constructor.
  - destruct (String.ltb x y) eqn:Hxy.
    + eexists; split; [done|].
      apply ltb_leb in Hxy.
      constructor; [by constructor|].
      constructor; [done|].
      eapply Forall_impl; [exact Hy|]. intros z Hz. by etrans.
    + destruct IH as (l' & Hi & Hs). rewrite Hi. simpl.
      eexists; split; [done|].
      constructor; [done|].
      rewrite (py_insert_perm _ _ _ _ Hi).
      constructor; [by apply ltb_false_leb|done].
Qed.

Lemma py_sorted_from_str acc l :
  StronglySorted String.le acc →
  ∃ l', py_sorted_from str_lt acc l = Ok l' ∧ StronglySorted String.le l'.
Proof.
  revert acc. induction l as [|x l IH]; intros acc Hacc; simpl.
  - eauto.
  - destruct (py_insert_str x acc Hacc) as (acc' & -> & Hacc'). simpl. eauto.
Qed.

(** [sorted] never raises on strings; it returns the ascending arrangement. *)
Lemma py_sorted_str l :
  ∃ l', py_sorted str_lt l = Ok l' ∧ StronglySorted String.le l' ∧ l' ≡ₚ l.
Proof.
  destruct (py_sorted_from_str [] l) as (l' & Hl' & Hs); [constructor|].
  exists l'. split_and!; [done..|]. by apply py_sorted_perm in Hl'.
Qed.

Lemma StronglySorted_le_NoDup l :
  StronglySorted String.le l → NoDup l → StronglySorted str_below l.
Proof.
  induction 1 as [|x l Hl IH Hx]; intros Hnd; [constructor|].
  apply NoDup_cons in Hnd as [Hx' Hnd].
  constructor; [auto|].
  apply Forall_forall. intros y Hy. rewrite Forall_forall in Hx.
  apply le_ne_ltb; [auto|]. intros ->. done.
Qed.

(** ** Columns, masks and [unique] *)

Lemma get_loc_None col cols : get_loc col cols = None ↔ col ∉ cols.
Proof.
  induction cols as [|c cs IH]; simpl.
  - split; [intros _; apply not_elem_of_nil|done].
  - rewrite not_elem_of_cons. case_decide as Hc.
    + split; [done|]. intros [? _]. by subst.
    + rewrite fmap_None, IH. naive_solver.
Qed.

Lemma get_loc_Some col cols : col ∈ cols → ∃ i, get_loc col cols = Some i.
Proof.
  intros Hin. destruct (get_loc col cols) eqn:H; [eauto|].
  by apply get_loc_None in H.
Qed.

Lemma getitem_Ok df col s :
  getitem df col = Ok s ↔
  ∃ i, get_loc col (columns df) = Some i ∧ s = cell_at i <$> rows df.
Proof.
  unfold getitem. destruct (get_loc col (columns df)) as [i|]; split.
  - intros [= <-]. eauto.
  - by intros (? & [= <-] & ->).
  - done.
  - by intros (? & ? & _).
Qed.

Lemma filter_zip_fmap {A} (f : A → bool) (l : list A) :
  fst <$> List.filter snd (zip l (f <$> l)) = List.filter f l.
Proof.
  induction l as [|x l IH]; [done|]. simpl.
  destruct (f x); simpl; [f_equal|]; exact IH.
Qed.

Lemma getitem_mask_isin df i values :
  getitem_mask df (isin (cell_at i <$> rows df) values) =
  Frame (columns df)
    (List.filter (λ r, bool_decide (cell_at i r ∈ values)) (rows df)).
Proof.
  unfold getitem_mask, isin. f_equal.
  rewrite <- list_fmap_compose. apply filter_zip_fmap.
Qed.

Lemma filter_all {A} (f : A → bool) (l : list A) :
  (∀ x, x ∈ l → f x = true) → List.filter f l = l.
Proof.
  induction l as [|x l IH]; intros H; [done|]. simpl.
  rewrite H by left. f_equal. apply IH. intros y Hy. apply H. by right.
Qed.

Lemma filter_none {A} (f : A → bool) (l : list A) :
  (∀ x, x ∈ l → f x = false) → List.filter f l = [].
Proof.
  induction l as [|x l IH]; intros H; [done|]. simpl.
  rewrite H by left. apply IH. intros y Hy. apply H. by right.
Qed.

Lemma filter_sublist {A} (f : A → bool) (l : list A) :
  List.filter f l `sublist_of` l.
Proof.
  induction l as [|x l IH]; simpl; [constructor|].
  destruct (f x); by constructor.
Qed.

Lemma filter_sublist_mono {A} (f g : A → bool) (l : list A) :
  (∀ x, f x = true → g x = true) →
  List.filter f l `sublist_of` List.filter g l.
Proof.
  intros Hfg. induction l as [|x l IH]; simpl; [constructor|].
  destruct (f x) eqn:Hf.
  - rewrite (Hfg _ Hf). by constructor.
  - destruct (g x); [by constructor|done].
Qed.

Lemma elem_of_List_filter {A} (f : A → bool) (l : list A) x :
  x ∈ List.filter f l ↔ x ∈ l ∧ f x = true.
Proof. rewrite !list_elem_of_In. apply filter_In. Qed.

Lemma elem_of_unique {A} `{EqDecision A} (l : list A) x : x ∈ unique l ↔ x ∈ l.
Proof.
  induction l as [|y l IH]; simpl; [done|].
  rewrite !elem_of_cons, elem_of_List_filter, IH, bool_decide_eq_true.
  destruct (decide (x = y)); naive_solver.
Qed.

Lemma NoDup_List_filter {A} (f : A → bool) (l : list A) :
  NoDup l → NoDup (List.filter f l).
Proof.
  induction 1 as [|x l Hx Hl IH]; simpl; [constructor|].
  destruct (f x); [|done].
  constructor; [|done]. rewrite elem_of_List_filter. naive_solver.
Qed.

Lemma NoDup_unique {A} `{EqDecision A} (l : list A) : NoDup (unique l).
Proof.
  induction l as [|y l IH]; simpl; constructor.
  - rewrite elem_of_List_filter, bool_decide_eq_true. naive_solver.
  - by apply NoDup_List_filter.
Qed.

(** ** The valid values: [all_states] and [all_categories] *)

Section catalogue_facts.
Variable float_str : Q → string.

Lemma state_set_Ok df S :
  state_set float_str df = Ok S ↔
  ∃ s, getitem df "state_name" = Ok s ∧
       S = list_to_set (unique (astype_str float_str (dropna s))).
Proof.
  unfold state_set. rewrite bind_Ok. split.
  - intros (s & ? & [= <-]). eauto.
  - intros (s & ? & ->). eauto.
Qed.

Lemma state_set_Raise df e :
  state_set float_str df = Raise e → e = KeyError "state_name".
Proof.
  unfold state_set, getitem.
  destruct (get_loc _ _); simpl; [done|]. by intros [= <-].
Qed.

Lemma elem_of_state_set df S x :
  state_set float_str df = Ok S →
  x ∈ S ↔ ∃ s c, getitem df "state_name" = Ok s ∧ c ∈ s ∧ c ≠ NaN ∧
                 x = astype_str_cell float_str c.
Proof.
  intros (s & Hs & ->)%state_set_Ok.
  rewrite elem_of_list_to_set, elem_of_unique. unfold astype_str, dropna.
  rewrite list_elem_of_fmap. setoid_rewrite elem_of_List_filter.
  split.
  - intros (c & -> & Hc & Hna). exists s, c. split_and!; [done..| |done].
    by destruct c.
  - intros (s' & c & Hs' & Hc & Hna & ->). rewrite Hs in Hs'.
    injection Hs' as <-. exists c. split_and!; [done..|]. by destruct c.
Qed.

Lemma state_union_Raise dfs e :
  state_union float_str dfs = Raise e → e = KeyError "state_name".
Proof.
  induction dfs as [|df dfs IH]; simpl; [done|].
  destruct (state_set float_str df) as [S|e'] eqn:HS; simpl.
  - destruct (state_union float_str dfs); simpl; [done|].
    intros [= <-]. by apply IH.
  - intros [= <-]. by apply state_set_Raise in HS.
Qed.

Lemma state_union_perm dfs dfs' :
  dfs ≡ₚ dfs' → state_union float_str dfs = state_union float_str dfs'.
Proof.
  induction 1 as [|df l l' _ IH|x y l|l l' l'' _ IH1 _ IH2]; simpl.
  - done.
  - by rewrite IH.
  - destruct (state_set float_str x) as [Sx|ex] eqn:Hx,
      (state_set float_str y) as [Sy|ey] eqn:Hy,
      (state_union float_str l) as [u|eu] eqn:Hu; simpl; try done.
    + f_equal. set_solver.
    + apply state_set_Raise in Hx, Hy. by subst.
    + apply state_set_Raise in Hx, Hy. by subst.
  - by rewrite IH1.
Qed.

Lemma all_states_union df1 df3 df4 df5 :
  all_states float_str df1 df3 df4 df5 =
  state_union float_str [df1; df3; df4; df5] ≫= λ u, py_sorted str_lt (elements u).
Proof.
  unfold all_states. simpl.
  destruct (state_set float_str df1) as [S1|]; simpl; [|done].
  destruct (state_set float_str df3) as [S3|]; simpl; [|done].
  destruct (state_set float_str df4) as [S4|]; simpl; [|done].
  destruct (state_set float_str df5) as [S5|]; simpl; [|done].
  do 2 f_equal. set_solver.
Qed.

(** The list does not depend on the order in which the four tables are
    combined. *)
Lemma all_states_order a b c d a' b' c' d' :
  [a; b; c; d] ≡ₚ [a'; b'; c'; d'] →
  all_states float_str a b c d = all_states float_str a' b' c' d'.
Proof.
  intros Hp. rewrite !all_states_union. by rewrite (state_union_perm _ _ Hp).
Qed.

Lemma elem_of_state_union dfs u x :
  state_union float_str dfs = Ok u →
  x ∈ u ↔ ∃ df S, df ∈ dfs ∧ state_set float_str df = Ok S ∧ x ∈ S.
Proof.
  revert u. induction dfs as [|df dfs IH]; intros u; simpl.
  - intros [= <-]. split; [set_solver|]. intros (? & ? & []%elem_of_nil & _).
  - destruct (state_set float_str df) as [S|] eqn:HS; simpl; [|done].
    destruct (state_union float_str dfs) as [u'|]; simpl; [|done].
    intros [= <-]. rewrite elem_of_union, (IH u' eq_refl). split.
    + intros [?|(df' & S' & ? & ? & ?)].
      * exists df, S. split_and!; [left|done..].
      * exists df', S'. split_and!; [by right|done..].
    + intros (df' & S' & [->|?]%elem_of_cons & HS' & ?).
      * left. congruence.
      * right. eauto.
Qed.

(** [all_states] is strictly ascending (so duplicate free), and holds exactly
    the strings of the non-missing [state_name] entries of the four
    tables. *)
Lemma all_states_sorted df1 df3 df4 df5 l :
  all_states float_str df1 df3 df4 df5 = Ok l →
  StronglySorted str_below l ∧ NoDup l ∧
  ∀ x, x ∈ l ↔
    ∃ df s c, df ∈ [df1; df3; df4; df5] ∧ getitem df "state_name" = Ok s ∧
              c ∈ s ∧ c ≠ NaN ∧ x = astype_str_cell float_str c.
Proof.
  rewrite all_states_union, bind_Ok. intros (u & Hu & Hl).
  destruct (py_sorted_str (elements u)) as (l' & Hl' & Hs & Hp).
  rewrite Hl in Hl'. injection Hl' as <-.
  assert (NoDup l) as Hnd by (rewrite Hp; apply NoDup_elements).
  split_and!; [by apply StronglySorted_le_NoDup|done|].
  intros x. rewrite Hp, elem_of_elements, (elem_of_state_union _ _ _ Hu).
  split.
  - intros (df & S & Hdf & HS & Hx).
    apply (elem_of_state_set _ _ _ HS) in Hx as (s & c & ? & ? & ? & ->).
    by exists df, s, c.
  - intros (df & s & c & Hdf & Hs' & Hc & Hna & ->).
    destruct (state_set float_str df) as [S|] eqn:HS.
    + exists df, S. split_and!; [done..|].
      apply (elem_of_state_set _ _ _ HS). by exists s, c.
    + unfold state_set in HS. by rewrite Hs' in HS.
Qed.
End catalogue_facts.

(** ** The filters *)

(** Attribute access and item access return the same column. *)
Lemma getattr_Ok df col s : getattr df col = Ok s ↔ getitem df col = Ok s.
Proof. unfold getattr, getitem. destruct (get_loc col (columns df)); naive_solver. Qed.

Lemma _f_has S df col i :
  get_loc col (columns df) = Some i →
  _f S df col =
  Frame (columns df) (List.filter (λ r, selected S (cell_at i r)) (rows df)).
Proof.
  intros Hi. unfold _f, getitem. rewrite Hi. apply getitem_mask_isin.
Qed.

Lemma df_cat_f_has cats df i :
  get_loc "category_name" (columns df) = Some i →
  df_cat_f cats df =
  Ok (Frame (columns df)
        (List.filter (λ r, bool_decide (cell_at i r ∈ cats)) (rows df))).
Proof.
  intros Hi. unfold df_cat_f, getattr. rewrite Hi. simpl.
  by rewrite getitem_mask_isin.
Qed.

Lemma selected_mono S S' c : S ⊆ S' → selected S c = true → selected S' c = true.
Proof.
  unfold selected. rewrite !bool_decide_eq_true, !list_elem_of_fmap.
  intros HS (s & -> & Hs). exists s. split; [done|]. by apply HS.
Qed.

Lemma frame_eta df : Frame (columns df) (rows df) = df.
Proof. by destruct df. Qed.

(** C3.  A table without the filter column passes through [_f] unchanged,
    whatever the selection: same columns, same rows, same order. *)
Theorem filter_without_column (S : list string) (df : DataFrame) (col : string) :
  col ∉ columns df → _f S df col = df.
Proof.
  intros Hcol. apply get_loc_None in Hcol.
  unfold _f, getitem. by rewrite Hcol.
Qed.

Lemma _f_subsequence (S S' : list string) (df : DataFrame) (col : string) :
  col ∈ columns df →
  ∃ i, get_loc col (columns df) = Some i ∧
    columns (_f S df col) = columns df ∧
    rows (_f S df col) = List.filter (λ r, selected S (cell_at i r)) (rows df) ∧
    rows (_f S df col) `sublist_of` rows df ∧
    (∀ r, r ∈ rows (_f S df col) ↔ r ∈ rows df ∧ cell_at i r ∈ Str <$> S) ∧
    (NoDup (label <$> rows df) → NoDup (label <$> rows (_f S df col))) ∧
    (S ⊆ S' → rows (_f S df col) `sublist_of` rows (_f S' df col)).
Proof.
  intros (i & Hi)%get_loc_Some. exists i. split; [done|].
  rewrite !(_f_has _ _ _ _ Hi). simpl. split_and!; [done..| | | |].
  - apply filter_sublist.
  - intros r. rewrite elem_of_List_filter. unfold selected.
    by rewrite bool_decide_eq_true.
  - intros Hnd. eapply sublist_NoDup; [exact Hnd|].
    apply fmap_sublist, filter_sublist.
  - intros HS. apply filter_sublist_mono. intros r. by apply selected_mono.
Qed.

Lemma df_cat_f_subsequence (cats cats' : list cell) (df : DataFrame) :
  "category_name" ∈ columns df →
  ∃ i out, get_loc "category_name" (columns df) = Some i ∧
    df_cat_f cats df = Ok out ∧
    columns out = columns df ∧
    rows out = List.filter (λ r, bool_decide (cell_at i r ∈ cats)) (rows df) ∧
    rows out `sublist_of` rows df ∧
    (∀ out', cats ⊆ cats' → df_cat_f cats' df = Ok out' →
             rows out `sublist_of` rows out').
Proof.
  intros (i & Hi)%get_loc_Some. eexists i, _. split; [done|].
  rewrite !(df_cat_f_has _ _ _ Hi). split; [done|]. simpl.
  split_and!; [done..| |].
  - apply filter_sublist.
  - intros out' Hc [= <-]. simpl. apply filter_sublist_mono.
    intros r. rewrite !bool_decide_eq_true. apply Hc.
Qed.

(** C10.  On a table that has the filter column, the result of [_f] (and of
    the category filter) keeps the columns and is a subsequence of the rows:
    exactly the rows whose entry is selected, in the order of the input,
    none repeated or added; a larger selection keeps every row a smaller one
    keeps. *)
Theorem filter_subsequence (S S' : list string) (cats cats' : list cell)
    (df df_cat : DataFrame) (col : string) :
  col ∈ columns df →
  "category_name" ∈ columns df_cat →
  (∃ i, get_loc col (columns df) = Some i ∧
    columns (_f S df col) = columns df ∧
    rows (_f S df col) = List.filter (λ r, selected S (cell_at i r)) (rows df) ∧
    rows (_f S df col) `sublist_of` rows df ∧
    (∀ r, r ∈ rows (_f S df col) ↔ r ∈ rows df ∧ cell_at i r ∈ Str <$> S) ∧
    (NoDup (label <$> rows df) → NoDup (label <$> rows (_f S df col))) ∧
    (S ⊆ S' → rows (_f S df col) `sublist_of` rows (_f S' df col))) ∧
  (∃ i out, get_loc "category_name" (columns df_cat) = Some i ∧
    df_cat_f cats df_cat = Ok out ∧
    columns out = columns df_cat ∧
    rows out = List.filter (λ r, bool_decide (cell_at i r ∈ cats)) (rows df_cat) ∧
    rows out `sublist_of` rows df_cat ∧
    (∀ out', cats ⊆ cats' → df_cat_f cats' df_cat = Ok out' →
             rows out `sublist_of` rows out')).
Proof.
  intros Hcol Hcat. split.
  - by apply _f_subsequence.
  - by apply df_cat_f_subsequence.
Qed.

(** C1 (as amended).  With the default selection, [_f] returns each of the
    four state tables unchanged when its [state_name] entries are all
    strings, and the category filter returns the category table unchanged
    whenever [all_categories] could be computed. *)
Theorem full_selection_identity (float_str : Q → string) (nan_sort : list_sort)
    (df1 df3 df4 df5 df_cat : DataFrame) (states : list string) (cats : list cell) :
  all_states float_str df1 df3 df4 df5 = Ok states →
  all_categories nan_sort df_cat = Ok cats →
  (∀ df s, df ∈ [df1; df3; df4; df5] → getitem df "state_name" = Ok s →
     Forall is_str s → _f states df "state_name" = df) ∧
  df_cat_f cats df_cat = Ok df_cat.
Proof.
  intros Hst Hcat. split.
  - intros df s Hdf Hs Hstr.
    pose proof Hs as (i & Hi & ->)%getitem_Ok.
    rewrite (_f_has _ _ _ _ Hi), filter_all; [apply frame_eta|].
    intros r Hr. unfold selected. apply bool_decide_eq_true.
    assert (cell_at i r ∈ cell_at i <$> rows df) as Hc
      by (apply list_elem_of_fmap; eauto).
    rewrite Forall_forall in Hstr. specialize (Hstr _ Hc).
    destruct (cell_at i r) as [|x| |] eqn:Hx; try done.
    apply list_elem_of_fmap. exists x. split; [done|].
    apply (all_states_sorted _ _ _ _ _ _ Hst).
    exists df, (cell_at i <$> rows df), (Str x). by split_and!.
  - unfold all_categories in Hcat. apply bind_Ok in Hcat as (s & Hs & Hsort).
    apply getattr_Ok in Hs. pose proof Hs as (i & Hi & ->)%getitem_Ok.
    rewrite (df_cat_f_has _ _ _ Hi), filter_all; [by rewrite frame_eta|].
    intros r Hr. apply bool_decide_eq_true.
    rewrite (sorted_cells_perm _ _ _ Hsort), elem_of_unique.
    apply list_elem_of_fmap; eauto.
Qed.

(** The claim of C1 fails on a table with a missing [state_name]: the default
    selection drops that row. *)
Lemma full_selection_drops_missing_state :
  ∃ states, all_states (λ _, "") ex_missing_state ex_missing_state
              ex_missing_state ex_missing_state = Ok states ∧
            _f states ex_missing_state "state_name" ≠ ex_missing_state.
Proof. exists ["Goa"]. split; [by vm_compute|]. by vm_compute. Qed.

(** C2, on the category side.  [all_categories] has no [dropna]: a category
    table whose only category is missing yields the list [[nan]], and one that
    mixes a name with a missing entry makes [sorted] raise. *)
Theorem all_categories_keeps_missing (nan_sort : list_sort) :
  all_categories nan_sort ex_missing_category = Ok [NaN] ∧
  all_categories nan_sort ex_mixed_category = Raise TypeError.
Proof. split; by vm_compute. Qed.

(** ** Binning *)

Lemma Qltb_lt x y : Qltb x y = true ↔ (x < y)%Q.
Proof. unfold Qltb. rewrite Qlt_alt. by destruct (x ?= y)%Q. Qed.

Lemma Qltb_ge x y : Qltb x y = false ↔ (y <= x)%Q.
Proof.
  rewrite <- not_true_iff_false, Qltb_lt. split.
  - apply Qnot_lt_le.
  - intros ??. by eapply Qlt_not_le.
Qed.








(** ** The store: what a run can change *)

Section preserves.
Context (n : nat).

Lemma preserves_ret {A} (a : A) (Q : A → Prop) : Q a → preserves n (mret a) Q.
Proof. intros HQ σ Hn. simpl. split_and!; [done..|]. by intros ? [= <-]. Qed.

Lemma preserves_bind {A B} (m : M A) (f : A → M B) P Q :
  preserves n m P → (∀ a, P a → preserves n (f a) Q) →
  preserves n (m ≫= f) Q.
Proof.
  intros Hm Hf σ Hn. destruct (Hm σ Hn) as (Ht & Hl & HP).
  unfold mbind, M_bind. destruct (m σ) as [[a|e] σ']; simpl in *.
  - destruct (Hf a (HP a eq_refl) σ' Hl) as (Ht' & Hl' & HQ).
    split_and!; [congruence|done..].
  - done.
Qed.

Lemma preserves_weaken {A} (m : M A) (P Q : A → Prop) :
  preserves n m P → (∀ a, P a → Q a) → preserves n m Q.
Proof.
  intros Hm HPQ σ Hn. destruct (Hm σ Hn) as (? & ? & ?). naive_solver.
Qed.

Lemma preserves_lift {A} (x : result A) : preserves n (lift x) (λ _, True).
Proof. intros σ Hn. by simpl. Qed.

Lemma preserves_deref r : preserves n (deref r) (λ _, True).
Proof. intros σ Hn. by simpl. Qed.

(** A new object is placed after the existing ones. *)
Lemma preserves_new df : preserves n (new df) (λ r, n ≤ r).
Proof.
  intros σ Hn. simpl. rewrite take_app_le, length_app by done.
  split_and!; [done|lia|]. by intros ? [= <-].
Qed.

(** A write through a reference beyond the first [n] objects. *)
Lemma preserves_store_setitem r col vals :
  n ≤ r → preserves n (store_setitem r col vals) (λ _, True).
Proof.
  intros Hr σ Hn. unfold store_setitem. cbn [fst snd].
  rewrite take_alter_ge, length_alter by done. done.
Qed.

Lemma preserves_copy r : preserves n (copy r) (λ r', n ≤ r').
Proof.
  eapply preserves_bind; [apply preserves_deref|].
  intros df _. apply preserves_new.
Qed.

Lemma preserves__f_obj S r col : preserves n (_f_obj S r col) (λ _, True).
Proof.
  eapply preserves_bind; [apply preserves_deref|]. intros df _.
  case_decide.
  - eapply preserves_weaken; [apply preserves_new|done].
  - by apply preserves_ret.
Qed.
End preserves.

(** One step of a straight-line block: run the first action, continue. *)
Ltac preserves_step :=
  lazymatch goal with
  | |- preserves _ (mret _) _ => by apply preserves_ret
  | |- preserves _ (lift _) _ => apply preserves_lift
  | |- preserves _ (lift _ ≫= _) _ =>
      eapply preserves_bind; [apply preserves_lift|intros ? _]
  | |- preserves _ (deref _ ≫= _) _ =>
      eapply preserves_bind; [apply preserves_deref|intros ? _]
  | |- preserves _ (new _ ≫= _) _ =>
      eapply preserves_bind; [apply preserves_new|intros ? ?]
  | |- preserves _ (copy _ ≫= _) _ =>
      eapply preserves_bind; [apply preserves_copy|intros ? ?]
  | |- preserves _ (_f_obj _ _ _ ≫= _) _ =>
      eapply preserves_bind; [apply preserves__f_obj|intros ? _]
  | |- preserves _ (store_setitem _ _ _ ≫= _) _ =>
      eapply preserves_bind; [by apply preserves_store_setitem|intros ? _]
  end.

Section script_facts.
Variable float_str : Q → string.
Variable float_sum : list Q → Q.
Variable nan_sort : list_sort.
Variable ui : charts.
Variable multiselect_states : list string → list string.
Variable multiselect_cats : list cell → list cell.
Context (n : nat).

Lemma preserves_tab_transactions r :
  preserves n (tab_transactions float_sum ui r) (λ _, True).
Proof. unfold tab_transactions. repeat preserves_step. Qed.

Lemma preserves_tab_categories r :
  preserves n (tab_categories ui r) (λ _, True).
Proof. unfold tab_categories. repeat preserves_step. Qed.

Lemma preserves_tab_devices r :
  preserves n (tab_devices float_str ui r) (λ _, True).
Proof. unfold tab_devices. repeat preserves_step. Qed.

Lemma preserves_tab_insurance r :
  preserves n (tab_insurance float_str ui r) (λ _, True).
Proof. unfold tab_insurance. repeat preserves_step. Qed.

Lemma preserves_tab_growth r : preserves n (tab_growth ui r) (λ _, True).
Proof. unfold tab_growth. repeat preserves_step. Qed.

Lemma preserves_tab_engagement r :
  preserves n (tab_engagement ui r) (λ _, True).
Proof. unfold tab_engagement. repeat preserves_step. Qed.

Lemma preserves_sidebar_and_tabs r1 r2 r3 r4 r5 rc :
  preserves n
    (sidebar_and_tabs float_str float_sum nan_sort ui
       multiselect_states multiselect_cats r1 r2 r3 r4 r5 rc)
    (λ ns, (df1 ns, df2 ns, df3 ns, df4 ns, df5 ns, df_cat ns)
           = (r1, r2, r3, r4, r5, rc)).
Proof.
  unfold sidebar_and_tabs. repeat preserves_step.
  eapply preserves_bind; [apply preserves_tab_transactions|intros [??] _].
  eapply preserves_bind; [apply preserves_tab_categories|intros ? _].
  eapply preserves_bind; [apply preserves_tab_devices|intros ? _].
  eapply preserves_bind; [apply preserves_tab_insurance|intros [??] _].
  eapply preserves_bind; [apply preserves_tab_growth|intros ? _].
  eapply preserves_bind; [apply preserves_tab_engagement|intros ? _].
  by apply preserves_ret.
Qed.
End script_facts.

(** C9.  A run of the script, whether it ends or raises, leaves the six loaded
    tables as [read_csv] returned them; when it ends, the names [df1] ...
    [df_cat] still refer to them. *)
Theorem sources_never_mutated (float_str : Q → string)
    (float_sum : list Q → Q) (nan_sort : list_sort) (ui : charts)
    (csv1 csv2 csv3 csv4 csv5 csv_cat : DataFrame)
    (multiselect_states : list string → list string)
    (multiselect_cats : list cell → list cell) :
  let run := dashboard float_str float_sum nan_sort ui
               csv1 csv2 csv3 csv4 csv5 csv_cat
               multiselect_states multiselect_cats [] in
  take 6 run.2 = [csv1; csv2; csv3; csv4; csv5; csv_cat] ∧
  ∀ ns, run.1 = Ok ns →
    run.2 !! df1 ns = Some csv1 ∧ run.2 !! df2 ns = Some csv2 ∧
    run.2 !! df3 ns = Some csv3 ∧ run.2 !! df4 ns = Some csv4 ∧
    run.2 !! df5 ns = Some csv5 ∧ run.2 !! df_cat ns = Some csv_cat.
Proof.
  intros run.
  pose proof (preserves_sidebar_and_tabs float_str float_sum nan_sort ui
    multiselect_states multiselect_cats 6 0 1 2 3 4 5
    [csv1; csv2; csv3; csv4; csv5; csv_cat]) as H.
  destruct H as (Ht & _ & Hns); [simpl; lia|].
  change (sidebar_and_tabs float_str float_sum nan_sort ui
            multiselect_states multiselect_cats
            0 1 2 3 4 5 [csv1; csv2; csv3; csv4; csv5; csv_cat]) with run in *.
  split; [exact Ht|].
  intros ns Hrun. specialize (Hns ns Hrun). injection Hns as -> -> -> -> -> ->.
  assert (∀ i, i < 6 → run.2 !! i = [csv1; csv2; csv3; csv4; csv5; csv_cat] !! i)
    as Hi.
  { intros i Hi. by rewrite <- (lookup_take_lt run.2 6 i), Ht, lookup_take_lt. }
  rewrite !Hi by lia. done.
Qed.

(** Without [copy], the write of line 175 would land in the loaded table. *)
Example setitem_writes_in_place :
  (store_setitem 0 "usage_tier" [Str "Low"; Str "High"] [ex_devices]).2
  ≠ [ex_devices].
Proof. by vm_compute. Qed.

(** ** Reshaped views *)

Lemma assoc_group_add k k' v gs :
  assoc k (group_add k' v gs) =
  if decide (k' = k) then Some (default [] (assoc k gs) ++ [v]) else assoc k gs.
Proof.
  induction gs as [|[k0 vs] gs IH]; simpl.
  - by case_decide.
  - destruct (decide (k0 = k')) as [->|Hk0]; simpl.
    + by case_decide.
    + rewrite IH. repeat case_decide; simplify_eq; done.
Qed.

Lemma vals_of_cons k t ts :
  vals_of k (t :: ts) =
  if decide (t.1 = k) then t.2 :: vals_of k ts else vals_of k ts.
Proof. unfold vals_of. simpl. by case_bool_decide; case_decide. Qed.

(** One pass over the rows gathers, for each key pair without a missing
    component, the values of its rows in row order. *)
Lemma assoc_foldl_group_step k ts gs :
  valid_key k →
  assoc k (foldl group_step gs ts) =
  match assoc k gs with
  | Some us => Some (us ++ vals_of k ts)
  | None => match vals_of k ts with [] => None | vs => Some vs end
  end.
Proof.
  intros [Hk1 Hk2]. revert gs. induction ts as [|t ts IH]; intros gs; simpl.
  - unfold vals_of. simpl. destruct (assoc k gs); [by rewrite app_nil_r|done].
  - rewrite IH, vals_of_cons. unfold group_step.
    destruct (isna t.1.1 || isna t.1.2) eqn:Hna.
    + rewrite decide_False; [done|]. intros <-. by rewrite Hk1, Hk2 in Hna.
    + rewrite assoc_group_add. case_decide.
      * destruct (assoc k gs); simpl; [by rewrite <- app_assoc|done].
      * done.
Qed.

Lemma assoc_foldl_group_step_invalid k ts gs :
  ¬ valid_key k → assoc k (foldl group_step gs ts) = assoc k gs.
Proof.
  intros Hk. revert gs. induction ts as [|t ts IH]; intros gs; simpl; [done|].
  rewrite IH. unfold group_step.
  destruct (isna t.1.1 || isna t.1.2) eqn:Hna; [done|].
  rewrite assoc_group_add, decide_False; [done|]. intros <-. apply Hk.
  apply orb_false_elim in Hna. done.
Qed.

Lemma assoc_groupby k ts :
  valid_key k →
  assoc k (groupby ts) =
  match vals_of k ts with [] => None | vs => Some vs end.
Proof. intros Hk. unfold groupby. by rewrite assoc_foldl_group_step. Qed.

Lemma assoc_None {V} k (l : list (key2 * V)) : assoc k l = None ↔ k ∉ l.*1.
Proof.
  induction l as [|[k' v] l IH]; simpl.
  - split; [intros _; apply not_elem_of_nil|done].
  - rewrite not_elem_of_cons. case_decide; naive_solver.
Qed.

Lemma assoc_is_Some {V} k (l : list (key2 * V)) : is_Some (assoc k l) ↔ k ∈ l.*1.
Proof.
  rewrite <- not_eq_None_Some, assoc_None.
  destruct (decide (k ∈ l.*1)); naive_solver.
Qed.

Section group_sum_facts.
Variable float_sum : list Q → Q.


Lemma index_of_lookup k ks i : index_of k ks = Some i → ks !! i = Some k.
Proof.
  revert i. induction ks as [|k' ks IH]; intros i; simpl; [done|].
  case_decide as Hk.
  - intros [= <-]. by subst.
  - destruct (index_of k ks) as [j|]; simpl; [|done].
    intros [= <-]. by apply IH.
Qed.

Lemma index_of_None k ks : index_of k ks = None ↔ k ∉ ks.
Proof.
  induction ks as [|k' ks IH]; simpl.
  - split; [intros _; apply not_elem_of_nil|done].
  - rewrite not_elem_of_cons. case_decide as Hk.
    + split; [done|]. intros [? _]. by subst.
    + rewrite fmap_None, IH. naive_solver.
Qed.

Lemma elem_of_sort_keys k ks : k ∈ sort_keys ks ↔ k ∈ ks.
Proof.
  unfold sort_keys. by rewrite merge_sort_Permutation, elem_of_unique.
Qed.

(** The cell of an unstacked series. *)
Lemma grid_at_unstack fill_value s r c :
  grid_at (unstack fill_value s) r c =
  if decide (r ∈ s.*1.*1 ∧ c ∈ s.*1.*2)
  then Some (from_option (unstack_conv fill_value s)
               (unstack_fill fill_value s) (assoc (r, c) s))
  else None.
Proof.
  unfold grid_at, unstack. simpl.
  destruct (index_of r (sort_keys (s.*1.*1))) as [i|] eqn:Hi; simpl.
  - pose proof (index_of_lookup _ _ _ Hi) as Hr.
    assert (r ∈ s.*1.*1) as Hr'.
    { apply elem_of_sort_keys. by eapply list_elem_of_lookup_2. }
    destruct (index_of c (sort_keys (s.*1.*2))) as [j|] eqn:Hj; simpl.
    + pose proof (index_of_lookup _ _ _ Hj) as Hc.
      assert (c ∈ s.*1.*2) as Hc'.
      { apply elem_of_sort_keys. by eapply list_elem_of_lookup_2. }
      rewrite decide_True by done.
      rewrite list_lookup_fmap, Hr. simpl. by rewrite list_lookup_fmap, Hc.
    + apply index_of_None in Hj. rewrite elem_of_sort_keys in Hj.
      by rewrite decide_False by naive_solver.
  - apply index_of_None in Hi. rewrite elem_of_sort_keys in Hi.
    by rewrite decide_False by naive_solver.
Qed.









End group_sum_facts.


(** ** The time axis of the area view *)

Lemma Qltb_asym x y : Qltb x y = true → Qltb y x = false.
Proof.
  rewrite Qltb_lt, Qltb_ge. apply Qlt_le_weak.
Qed.

Global Instance key_le_total : Total key_le.
Proof.
  intros a b. unfold key_le, key_leb.
  destruct a as [|s|x|x], b as [|t|y|y]; simpl; auto;
    try (destruct (String.leb_total s t) as [->| ->]; by auto);
    match goal with
    | |- context [Qltb ?u ?v] =>
        destruct (Qltb u v) eqn:E; simpl; auto;
        apply Qltb_asym in E; rewrite E; simpl; auto
    end.
Qed.

Lemma Forall_is_str l : Forall is_str l → ∃ ls, l = Str <$> ls.
Proof.
  induction 1 as [|c l Hc _ [ls ->]]; [by exists []|].
  destruct c as [|s| |]; try done. by exists (s :: ls).
Qed.

Lemma Sorted_key_le_Str ls : Sorted key_le (Str <$> ls) → Sorted String.le ls.
Proof.
  induction ls as [|s ls IH]; [constructor|].
  rewrite fmap_cons. intros [Hs Hhd]%Sorted_inv.
  constructor; [by apply IH|].
  destruct ls as [|t ls]; constructor. by apply HdRel_inv in Hhd.
Qed.

(** The sorted keys of a column of strings: strictly ascending strings. *)
Lemma sort_keys_Str l :
  Forall is_str l →
  ∃ ls, sort_keys l = Str <$> ls ∧ StronglySorted str_below ls ∧
        ∀ s, s ∈ ls ↔ Str s ∈ l.
Proof.
  intros Hl.
  assert (sort_keys l ≡ₚ unique l) as Hp by apply merge_sort_Permutation.
  assert (Forall is_str (sort_keys l)) as [ls Hls]%Forall_is_str.
  { rewrite Hp. apply Forall_forall. intros c Hc.
    rewrite elem_of_unique in Hc. rewrite Forall_forall in Hl. auto. }
  exists ls. split; [done|]. split.
  - apply StronglySorted_le_NoDup.
    + apply Sorted_StronglySorted; [apply _|].
      apply Sorted_key_le_Str. rewrite <- Hls. apply Sorted_merge_sort, _.
    + apply (NoDup_fmap_1 Str). rewrite <- Hls, Hp. apply NoDup_unique.
  - intros s. rewrite <- (elem_of_unique l), <- Hp, Hls, list_elem_of_fmap.
    naive_solver.
Qed.

Lemma StronglySorted_lookup_lt {A} (R : relation A) l i j x y :
  StronglySorted R l → l !! i = Some x → l !! j = Some y → i < j → R x y.
Proof.
  intros Hl. revert i j. induction Hl as [|z l Hl IH Hz]; intros i j; [done|].
  destruct i as [|i], j as [|j]; simpl; intros Hi Hj Hij; try lia.
  - injection Hi as ->. rewrite Forall_forall in Hz. apply Hz.
    by eapply list_elem_of_lookup_2.
  - eapply IH; [done..|lia].
Qed.

Lemma str_below_trans s t u : str_below s t → str_below t u → str_below s u.
Proof.
  intros Hst Htu. apply le_ne_ltb.
  - etrans; by apply ltb_leb.
  - intros ->. apply (str_below_irrefl t).
    assert (t = u) as -> by (apply (anti_symm String.le); by apply ltb_leb).
    done.
Qed.

Lemma str_below_asym s t : str_below s t → ¬ str_below t s.
Proof. intros H1 H2. by eapply str_below_irrefl, str_below_trans. Qed.

(** In a strictly ascending list, positions are ordered as the strings. *)
Lemma sorted_positions ls s t i j :
  StronglySorted str_below ls →
  index_of (Str s) (Str <$> ls) = Some i →
  index_of (Str t) (Str <$> ls) = Some j →
  i < j ↔ str_below s t.
Proof.
  intros Hs Hi%index_of_lookup Hj%index_of_lookup.
  rewrite list_lookup_fmap in Hi, Hj.
  destruct (ls !! i) as [s'|] eqn:Hi'; [|done].
  destruct (ls !! j) as [t'|] eqn:Hj'; [|done].
  simpl in Hi, Hj. simplify_eq. split.
  - by eapply StronglySorted_lookup_lt.
  - intros Hst. destruct (decide (i < j)) as [|Hge]; [done|]. exfalso.
    destruct (decide (i = j)) as [->|].
    + rewrite Hi' in Hj'. injection Hj' as ->. by eapply str_below_irrefl.
    + eapply str_below_asym; [exact Hst|].
      eapply (StronglySorted_lookup_lt _ _ j i); [done..|lia].
Qed.

Lemma labels_ascend_spec r n :
  labels_ascend r n = true →
  ∀ i, (0 ≤ i < Z.of_nat n)%Z →
       str_below (ranked_label (r + i)) (ranked_label (r + i + 1)).
Proof.
  revert r. induction n as [|n IH]; intros r H i Hi; [lia|].
  simpl in H. apply andb_prop in H as [H1 H2].
  destruct (decide (i = 0%Z)) as [->|Hne].
  - by rewrite Z.add_0_r.
  - replace (r + i)%Z with (r + 1 + (i - 1))%Z by lia. apply IH; [done|lia].
Qed.

(** Checked by evaluation: each of the 90000 labels from 1000-Q0 to 9999-Q9
    is below the next one. *)
Lemma labels_ascend_all : labels_ascend 0 (Z.to_nat 89999) = true.
Proof. by vm_compute. Qed.

Lemma ranked_label_mono a b :
  (0 ≤ a)%Z → (a < b)%Z → (b ≤ 89999)%Z →
  str_below (ranked_label a) (ranked_label b).
Proof.
  intros Ha Hab Hb.
  assert (∃ n : nat, b = (a + 1 + Z.of_nat n)%Z) as [n ->].
  { exists (Z.to_nat (b - a - 1)). lia. }
  induction n as [|n IH].
  - replace (a + 1 + Z.of_nat 0)%Z with (0 + a + 1)%Z by lia.
    replace a with (0 + a)%Z at 1 by lia.
    apply (labels_ascend_spec _ _ labels_ascend_all). lia.
  - eapply str_below_trans; [apply IH; lia|].
    replace (a + 1 + Z.of_nat (S n))%Z with (0 + (a + 1 + Z.of_nat n) + 1)%Z by lia.
    replace (a + 1 + Z.of_nat n)%Z with (0 + (a + 1 + Z.of_nat n))%Z at 1 by lia.
    apply (labels_ascend_spec _ _ labels_ascend_all). lia.
Qed.

Lemma time_label_ranked y q :
  (1000 ≤ y ≤ 9999)%Z → (0 ≤ q ≤ 9)%Z →
  time_label y q = ranked_label ((y - 1000) * 10 + q).
Proof.
  intros Hy Hq. unfold ranked_label.
  assert (((y - 1000) * 10 + q) / 10 = y - 1000)%Z as ->.
  { symmetry. apply (Z.div_unique _ _ _ q); lia. }
  assert (((y - 1000) * 10 + q) mod 10 = q)%Z as ->.
  { symmetry. apply (Z.mod_unique _ _ (y - 1000)); lia. }
  f_equal. lia.
Qed.

(** For four-digit years and one-digit quarters, the display strings are
    ordered as the pairs (year, quarter). *)
Lemma time_label_order y q y' q' :
  (1000 ≤ y ≤ 9999)%Z → (0 ≤ q ≤ 9)%Z →
  (1000 ≤ y' ≤ 9999)%Z → (0 ≤ q' ≤ 9)%Z →
  str_below (time_label y q) (time_label y' q') ↔
  (y < y' ∨ (y = y' ∧ q < q'))%Z.
Proof.
  intros Hy Hq Hy' Hq'.
  rewrite (time_label_ranked y q), (time_label_ranked y' q') by done.
  set (a := ((y - 1000) * 10 + q)%Z). set (b := ((y' - 1000) * 10 + q')%Z).
  assert ((y < y' ∨ (y = y' ∧ q < q')) ↔ a < b)%Z as -> by lia.
  split.
  - intros Hab. destruct (Z.lt_trichotomy a b) as [?|[E|Hba]]; [done|..].
    + rewrite E in Hab. by apply str_below_irrefl in Hab.
    + exfalso. eapply str_below_asym; [exact Hab|].
      apply ranked_label_mono; lia.
  - intros Hab. apply ranked_label_mono; lia.
Qed.

Lemma get_loc_lt col cols i : get_loc col cols = Some i → i < length cols.
Proof.
  revert i. induction cols as [|c cs IH]; intros i; simpl; [done|].
  case_decide.
  - intros [= <-]. lia.
  - destruct (get_loc col cs) as [j|]; simpl; [|done].
    intros [= <-]. specialize (IH j eq_refl). lia.
Qed.

Lemma get_loc_app_new col cols :
  get_loc col cols = None → get_loc col (cols ++ [col]) = Some (length cols).
Proof.
  induction cols as [|c cs IH]; simpl.
  - intros _. by rewrite decide_True.
  - case_decide; [done|]. rewrite fmap_None. intros Hn. by rewrite (IH Hn).
Qed.

Lemma length_getitem df col s : getitem df col = Ok s → length s = length (rows df).
Proof. intros (i & _ & ->)%getitem_Ok. apply length_fmap. Qed.

Lemma fmap_zip_with_r_Forall {A B C} (P : A → Prop) (f : A → B → C)
    (g : C → B) l k :
  Forall P l → (∀ x y, P x → g (f x y) = y) → length k ≤ length l →
  g <$> zip_with f l k = k.
Proof.
  intros Hl Hg. revert k. induction Hl as [|x l Hx Hl IH]; intros [|y k] Hlen;
    simpl in *; try done; try lia.
  rewrite Hg by done. f_equal. apply IH. lia.
Qed.

(** Reading back the column just assigned. *)
Lemma getitem_setitem df col vals :
  wf_frame df → length vals = length (rows df) →
  getitem (setitem df col vals) col = Ok vals.
Proof.
  intros Hwf Hlen. unfold setitem, getitem.
  destruct (get_loc col (columns df)) as [p|] eqn:Hp; simpl.
  - rewrite Hp. f_equal.
    apply (fmap_zip_with_r_Forall _ _ _ _ _ Hwf); [|lia].
    intros r v Hr. unfold cell_at. simpl.
    rewrite list_lookup_insert_eq; [done|].
    rewrite Hr. by eapply get_loc_lt.
  - rewrite (get_loc_app_new _ _ Hp). f_equal.
    apply (fmap_zip_with_r_Forall _ _ _ _ _ Hwf); [|lia].
    intros r v Hr. unfold cell_at. simpl.
    by rewrite <- Hr, list_lookup_middle.
Qed.

Lemma time_column_Ok float_str df tc :
  time_column float_str df = Ok tc →
  length tc = length (rows df) ∧ Forall is_str tc.
Proof.
  unfold time_column. intros (y & Hy & (q & Hq & [= <-])%bind_Ok)%bind_Ok.
  apply length_getitem in Hy, Hq. split.
  - rewrite length_zip_with. lia.
  - apply Forall_forall. intros c (? & ? & -> & _)%elem_of_zip_with. done.
Qed.

Lemma insert_row_perm ascending ps r l :
  insert_row ascending ps r l ≡ₚ r :: l.
Proof.
  induction l as [|r' l IH]; [done|]. simpl.
  destruct (rows_cmp ascending ps r r'); [done..|].
  by rewrite IH, Permutation_swap.
Qed.

Lemma stable_sort_perm ascending ps l : stable_sort ascending ps l ≡ₚ l.
Proof.
  induction l as [|r l IH]; [done|]. simpl.
  by rewrite insert_row_perm, IH.
Qed.

Lemma sort_values_Ok df by_ ascending df' :
  sort_values df by_ ascending = Ok df' →
  columns df' = columns df ∧ rows df' ≡ₚ rows df.
Proof.
  unfold sort_values. intros (ps & _ & [= <-])%bind_Ok. simpl.
  split; [done|]. apply stable_sort_perm.
Qed.

Lemma pivot_Ok df index columns values g :
  pivot df index columns values = Ok g →
  ∃ i, getitem df index = Ok i ∧ grid_index g = sort_keys i.
Proof.
  unfold pivot.
  intros (i & Hi & (c & Hc & (v & Hv & H)%bind_Ok)%bind_Ok)%bind_Ok.
  case_decide; [|done]. injection H as <-. exists i. split; [done|].
  simpl. unfold triples.
  apply length_getitem in Hi, Hc, Hv.
  rewrite !fst_zip; [done|lia|]. rewrite length_zip_with. lia.
Qed.

(** The index of the area view: the sorted keys of the time column. *)
Lemma area_view_index float_str df g :
  wf_frame df → area_view float_str df = Ok g →
  ∃ tc i, time_column float_str df = Ok tc ∧ i ≡ₚ tc ∧
          grid_index g = sort_keys i.
Proof.
  intros Hwf. unfold area_view.
  intros (tc & Htc & (df' & Hs & Hp)%bind_Ok)%bind_Ok.
  destruct (time_column_Ok _ _ _ Htc) as [Hlen _].
  pose proof (getitem_setitem df "time" tc Hwf Hlen) as Hget.
  apply sort_values_Ok in Hs as [Hcols Hrows].
  apply pivot_Ok in Hp as (i & Hi & Hg).
  exists tc, i. split_and!; [done| |done].
  apply getitem_Ok in Hget as (p & Hp & Htc').
  apply getitem_Ok in Hi as (p' & Hp' & ->).
  rewrite Hcols, Hp in Hp'. injection Hp' as <-.
  rewrite Hrows. by rewrite <- Htc'.
Qed.

(** C5 (as amended).  The time axis of the area view is the index of
    [pivot_val]: the display strings "year-Qquarter" of the rows, each once,
    in ascending string order.  For years of four digits and quarters of
    one digit this is the order of the pairs (year, quarter); in particular
    2023-Q4 stands before 2024-Q1. *)
Theorem time_axis_order (float_str : Q → string) (df : DataFrame) (g : Grid) :
  wf_frame df →
  area_view float_str df = Ok g →
  ∃ ls, grid_index g = Str <$> ls ∧
    StronglySorted str_below ls ∧
    (∀ s, s ∈ ls ↔ ∃ tc, time_column float_str df = Ok tc ∧ Str s ∈ tc) ∧
    (∀ y1 q1 y2 q2 i j,
       (1000 ≤ y1 ≤ 9999)%Z → (0 ≤ q1 ≤ 9)%Z →
       (1000 ≤ y2 ≤ 9999)%Z → (0 ≤ q2 ≤ 9)%Z →
       index_of (time_key float_str (Int y1) (Int q1)) (grid_index g) = Some i →
       index_of (time_key float_str (Int y2) (Int q2)) (grid_index g) = Some j →
       i < j ↔ (y1 < y2 ∨ (y1 = y2 ∧ q1 < q2))%Z) ∧
    (∀ i j,
       index_of (Str "2023-Q4") (grid_index g) = Some i →
       index_of (Str "2024-Q1") (grid_index g) = Some j → i < j).
Proof.
  intros Hwf Hg.
  destruct (area_view_index _ _ _ Hwf Hg) as (tc & i & Htc & Hperm & Hidx).
  destruct (time_column_Ok _ _ _ Htc) as [_ Hstr].
  destruct (sort_keys_Str i) as (ls & Hls & Hsorted & Hin).
  { apply Forall_forall. intros c Hc. rewrite Hperm in Hc.
    rewrite Forall_forall in Hstr. auto. }
  exists ls. rewrite Hidx, Hls.
  assert (∀ y1 q1 y2 q2 i j,
    (1000 ≤ y1 ≤ 9999)%Z → (0 ≤ q1 ≤ 9)%Z →
    (1000 ≤ y2 ≤ 9999)%Z → (0 ≤ q2 ≤ 9)%Z →
    index_of (time_key float_str (Int y1) (Int q1)) (Str <$> ls) = Some i →
    index_of (time_key float_str (Int y2) (Int q2)) (Str <$> ls) = Some j →
    i < j ↔ (y1 < y2 ∨ (y1 = y2 ∧ q1 < q2))%Z) as Horder.
  { intros y1 q1 y2 q2 a b Hy1 Hq1 Hy2 Hq2 Ha Hb.
    rewrite (sorted_positions _ _ _ _ _ Hsorted Ha Hb).
    by apply time_label_order. }
  split_and!; [done..| | |].
  - intros s. rewrite Hin, Hperm. split; [by eauto|].
    intros (tc' & Htc' & Hs). rewrite Htc in Htc'. by injection Htc' as <-.
  - exact Horder.
  - intros a b Ha Hb.
    apply (Horder 2023 4 2024 1 a b)%Z; [lia..|exact Ha|exact Hb|lia].
Qed.

(** The claim of C5 fails where the strings and the numbers disagree: with
    quarters 2 and 10 of one year, the axis puts 2023-Q10 first. *)
Lemma time_axis_follows_the_string :
  ∃ g, area_view (λ _, "") ex_quarters = Ok g ∧
       grid_index g = [Str "2023-Q10"; Str "2023-Q2"] ∧
       index_of (time_key (λ _, "") (Int 2023) (Int 10)) (grid_index g) = Some 0 ∧
       index_of (time_key (λ _, "") (Int 2023) (Int 2)) (grid_index g) = Some 1.
Proof. eexists. split; [by vm_compute|]. by vm_compute. Qed.

(** ** An empty selection *)

Lemma get_locs_Ok cols by_ : by_ ⊆ cols → ∃ ps, get_locs cols by_ = Ok ps.
Proof.
  induction by_ as [|c by_ IH]; intros Hsub; simpl; [eauto|].
  destruct (get_loc_Some c cols) as [i ->]; [apply Hsub; by left|].
  destruct IH as [ps ->]; [|simpl; eauto].
  intros x Hx. apply Hsub. by right.
Qed.

Lemma getitem_no_rows cols col :
  col ∈ cols → getitem (Frame cols []) col = Ok [].
Proof. intros [i Hi]%get_loc_Some. unfold getitem. simpl. by rewrite Hi. Qed.

Lemma sort_values_no_rows cols by_ ascending :
  by_ ⊆ cols → sort_values (Frame cols []) by_ ascending = Ok (Frame cols []).
Proof.
  intros [ps Hps]%get_locs_Ok. unfold sort_values. simpl. by rewrite Hps.
Qed.

Lemma area_view_no_rows float_str cols :
  "state_name" ∈ cols → "year" ∈ cols → "quarter" ∈ cols →
  "total_value" ∈ cols →
  area_view float_str (Frame cols []) = Ok empty_grid.
Proof.
  intros Hs Hy Hq Hv. unfold area_view, time_column.
  rewrite !getitem_no_rows by done. simpl.
  assert (∃ cols', setitem (Frame cols []) "time" [] = Frame cols' [] ∧
                   "time" ∈ cols' ∧ cols ⊆ cols') as (cols' & -> & Ht & Hsub).
  { unfold setitem. simpl. destruct (get_loc "time" cols) as [p|] eqn:Hp.
    - exists cols. split_and!; [done| |done].
      apply dec_stable. intros Hn. apply get_loc_None in Hn. congruence.
    - exists (cols ++ ["time"]). split_and!; [done|set_solver..]. }
  rewrite sort_values_no_rows; [simpl|].
  - unfold pivot. by rewrite !getitem_no_rows by auto.
  - intros c. rewrite !elem_of_cons, elem_of_nil. naive_solver.
Qed.

Lemma _f_nothing df col :
  is_Some (get_loc col (columns df)) → _f [] df col = Frame (columns df) [].
Proof.
  intros [i Hi]. rewrite (_f_has _ _ _ _ Hi). f_equal. by apply filter_none.
Qed.

Lemma pivot_table_no_rows float_sum cols i c v g :
  pivot_table float_sum (Frame cols []) i c v = Ok g → g = empty_grid.
Proof.
  unfold pivot_table, getitem. simpl.
  destruct (get_loc v cols); simpl; [|done].
  destruct (get_loc i cols); simpl; [|done].
  destruct (get_loc c cols); simpl; [|done].
  by intros [= <-].
Qed.

(** [all_states] reads [state_name] in each of the four tables. *)
Lemma all_states_Ok_columns float_str a b c d l :
  all_states float_str a b c d = Ok l →
  is_Some (get_loc "state_name" (columns a)) ∧
  is_Some (get_loc "state_name" (columns b)) ∧
  is_Some (get_loc "state_name" (columns c)) ∧
  is_Some (get_loc "state_name" (columns d)).
Proof.
  unfold all_states, state_set, getitem.
  destruct (get_loc "state_name" (columns a)); simpl; [|done].
  destruct (get_loc "state_name" (columns b)); simpl; [|done].
  destruct (get_loc "state_name" (columns c)); simpl; [|done].
  destruct (get_loc "state_name" (columns d)); simpl; [|done].
  intros _. split_and!; by eexists.
Qed.

(** Running the script step by step: the store and the references are
    computed, the operations on tables and the chart calls stay as they
    are. *)
Ltac run_script H :=
  unfold dashboard, sidebar_and_tabs, tab_transactions, tab_categories,
    tab_devices, tab_insurance, tab_growth, tab_engagement, copy, _f_obj,
    mbind, M_bind, mret, M_ret, new, deref, lift, store_setitem in H;
  cbn -[all_states all_categories _f df_cat_f pivot_table groupby_sum_unstack
        sort_values getitem cut setitem time_column pivot get_loc astype_str
        heatmap for_each annotate] in H.

(** The next call that may raise returned. *)
Ltac run_step H :=
  match type of H with
  | context [match ?x with Ok _ => _ | Raise _ => _ end] =>
      destruct x eqn:?; run_script H; [|done]
  end.

(** A run that ends had a state selected: with none, the heatmap pivot is
    empty and line 109 raises. *)
Lemma finished_run_selected float_str float_sum nan_sort ui
    csv1 csv2 csv3 csv4 csv5 csv_cat multiselect_states multiselect_cats ns σ :
  dashboard float_str float_sum nan_sort ui csv1 csv2 csv3 csv4 csv5 csv_cat
    multiselect_states multiselect_cats [] = (Ok ns, σ) →
  selected_states ns ≠ [].
Proof.
  intros H. run_script H.
  destruct (all_states float_str csv1 csv3 csv4 csv5) as [states|] eqn:Hst;
    [|done].
  destruct (all_states_Ok_columns _ _ _ _ _ _ Hst) as (H1 & H3 & H4 & H5).
  run_script H. run_step H.
  do 4 (rewrite decide_True in H by done; run_script H).
  do 3 run_step H.
  destruct (pivot_table _ _ _ _ _) as [p|] eqn:Hp; run_script H; [|done].
  destruct (heatmap ui p) as [[]|] eqn:Hh; run_script H; [|done].
  repeat run_step H.
  injection H as <- <-. simpl. intros Hnone.
  rewrite Hnone, (_f_nothing _ _ H1) in Hp.
  apply pivot_table_no_rows in Hp as ->. done.
Qed.

(** C7 (as amended).  On a table that has the filter column, an empty
    selection leaves no row.  The tables derived from the emptied table
    (heatmap pivot, stacked bar, area pivot, sorted table) are computed, and
    are empty, once the columns they read are there.  Drawing is another
    matter: the heatmap of the empty pivot raises [ValueError], so no run of
    the script with an empty state selection ends. *)
Theorem empty_selection (float_str : Q → string) (float_sum : list Q → Q)
    (ui : charts) (df df_cat : DataFrame) (col : string) :
  col ∈ columns df →
  "category_name" ∈ columns df_cat →
  let e := _f [] df col in
  e = Frame (columns df) [] ∧
  df_cat_f [] df_cat = Ok (Frame (columns df_cat) []) ∧
  (∀ i c v, i ∈ columns df → c ∈ columns df → v ∈ columns df →
     pivot_table float_sum e i c v = Ok empty_grid ∧
     groupby_sum_unstack float_sum e i c v = Ok empty_grid ∧
     pivot e i c v = Ok empty_grid) ∧
  (∀ by_ ascending, by_ ⊆ columns df → sort_values e by_ ascending = Ok e) ∧
  ("state_name" ∈ columns df → "year" ∈ columns df →
   "quarter" ∈ columns df → "total_value" ∈ columns df →
   area_view float_str e = Ok empty_grid) ∧
  (∀ i c v, i ∈ columns df → c ∈ columns df → v ∈ columns df →
     (p ← pivot_table float_sum e i c v; heatmap ui p) = Raise ValueError) ∧
  (∀ nan_sort csv1 csv2 csv3 csv4 csv5 csv_cat multiselect_states
     multiselect_cats ns σ,
     dashboard float_str float_sum nan_sort ui csv1 csv2 csv3 csv4 csv5 csv_cat
       multiselect_states multiselect_cats [] = (Ok ns, σ) →
     selected_states ns ≠ []).
Proof.
  intros [i Hi]%get_loc_Some [j Hj]%get_loc_Some e.
  assert (e = Frame (columns df) []) as ->.
  { subst e. rewrite (_f_has _ _ _ _ Hi). f_equal. by apply filter_none. }
  split_and!.
  - done.
  - rewrite (df_cat_f_has _ _ _ Hj). do 2 f_equal. apply filter_none.
    intros r _. apply bool_decide_eq_false, not_elem_of_nil.
  - intros a c v Ha Hc Hv.
    unfold pivot_table, groupby_sum_unstack, pivot.
    by rewrite !getitem_no_rows by done.
  - intros by_ ascending Hby. by apply sort_values_no_rows.
  - apply area_view_no_rows.
  - intros a c v Ha Hc Hv. unfold pivot_table.
    by rewrite !getitem_no_rows by done.
  - intros *. apply finished_run_selected.
Qed.

(** The claim of C7 fails on the script: with no state selected the run on
    the example tables raises at the heatmap, also when every chart call that
    the embedding takes as given returns. *)
Lemma nothing_selected_raises :
  (p ← pivot_table exact_sum (_f [] ex_states "state_name")
         "state_name" "quarter" "total_transactions";
   heatmap charts_return p) = Raise ValueError ∧
  (dashboard (λ _, "") exact_sum keep_order charts_return
     ex_states ex_devices ex_insurance ex_growth ex_engagement ex_categories
     (λ _, []) id []).1 = Raise ValueError.
Proof. split; by vm_compute. Qed.

(** X2.  A selected value that occurs nowhere in the column changes nothing:
    the script does not check the selection against the valid values. *)
Lemma _f_ignores_unknown (S bad : list string) (df : DataFrame) (col : string) :
  (∀ s c, getitem df col = Ok s → c ∈ s → c ∉ Str <$> bad) →
  _f (S ++ bad) df col = _f S df col.
Proof.
  intros Hbad. unfold _f. destruct (getitem df col) as [s|] eqn:Hs; [|done].
  f_equal. unfold isin. apply Forall_fmap_ext_1, Forall_forall.
  intros c Hc. apply bool_decide_ext. rewrite fmap_app, elem_of_app.
  specialize (Hbad s c eq_refl Hc). naive_solver.
Qed.

(** ** The properties at concrete tables *)

Ltac by_evaluation := apply (bool_decide_unpack _); vm_compute; exact I.

Lemma filter_without_column_witness :
  ("state_name" ∉ columns ex_devices) ∧
  _f ["Goa"] ex_devices "state_name" = ex_devices.
Proof.
  assert ("state_name" ∉ columns ex_devices) as H by by_evaluation.
  split; [exact H|]. exact (filter_without_column ["Goa"] ex_devices _ H).
Defined.

Lemma filter_subsequence_witness :
  "state_name" ∈ columns ex_states ∧
  "category_name" ∈ columns ex_categories ∧
  rows (_f ["Goa"] ex_states "state_name") `sublist_of` rows ex_states ∧
  rows (_f ["Goa"] ex_states "state_name")
    `sublist_of` rows (_f ["Assam"; "Goa"] ex_states "state_name").
Proof.
  assert ("state_name" ∈ columns ex_states) as H1 by by_evaluation.
  assert ("category_name" ∈ columns ex_categories) as H2 by by_evaluation.
  split; [exact H1|]. split; [exact H2|].
  destruct (filter_subsequence ["Goa"] ["Assam"; "Goa"] [] [] ex_states
              ex_categories "state_name" H1 H2)
    as [(i & _ & _ & _ & Hsub & _ & _ & Hmono) _].
  split; [exact Hsub|]. apply Hmono. by_evaluation.
Defined.

Lemma full_selection_identity_witness :
  all_states (λ _, "") ex_states ex_insurance ex_growth ex_engagement
    = Ok ["Assam"; "Goa"] ∧
  all_categories keep_order ex_categories
    = Ok [Str "Financial"; Str "Recharge"] ∧
  _f ["Assam"; "Goa"] ex_states "state_name" = ex_states ∧
  df_cat_f [Str "Financial"; Str "Recharge"] ex_categories = Ok ex_categories.
Proof.
  assert (all_states (λ _, "") ex_states ex_insurance ex_growth ex_engagement
          = Ok ["Assam"; "Goa"]) as H1 by (vm_compute; reflexivity).
  assert (all_categories keep_order ex_categories
          = Ok [Str "Financial"; Str "Recharge"])
    as H2 by (vm_compute; reflexivity).
  split; [exact H1|]. split; [exact H2|].
  destruct (full_selection_identity _ _ _ _ _ _ _ _ _ H1 H2) as [Hst Hcat].
  split; [|exact Hcat].
  apply (Hst ex_states [Str "Goa"; Str "Assam"; Str "Goa"]).
  - by_evaluation.
  - vm_compute; reflexivity.
  - repeat constructor.
Defined.


Lemma time_axis_order_witness :
  wf_frame ex_insurance ∧
  area_view (λ _, "") ex_insurance = Ok ex_insurance_view ∧
  ∀ i j, index_of (Str "2023-Q4") (grid_index ex_insurance_view) = Some i →
         index_of (Str "2024-Q1") (grid_index ex_insurance_view) = Some j →
         i < j.
Proof.
  assert (wf_frame ex_insurance) as Hwf by (repeat constructor).
  assert (area_view (λ _, "") ex_insurance = Ok ex_insurance_view) as Hg
    by (vm_compute; reflexivity).
  split; [exact Hwf|]. split; [exact Hg|].
  destruct (time_axis_order _ _ _ Hwf Hg) as (ls & _ & _ & _ & _ & H).
  exact H.
Defined.


Lemma empty_selection_witness :
  "state_name" ∈ columns ex_insurance ∧
  "category_name" ∈ columns ex_categories ∧
  _f [] ex_insurance "state_name" = Frame (columns ex_insurance) [] ∧
  area_view (λ _, "") (_f [] ex_insurance "state_name") = Ok empty_grid ∧
  (p ← pivot_table exact_sum (_f [] ex_insurance "state_name")
         "state_name" "quarter" "total_value";
   heatmap charts_return p) = Raise ValueError.
Proof.
  assert ("state_name" ∈ columns ex_insurance) as H1 by by_evaluation.
  assert ("category_name" ∈ columns ex_categories) as H2 by by_evaluation.
  split; [exact H1|]. split; [exact H2|].
  destruct (empty_selection (λ _, "") exact_sum charts_return ex_insurance
              ex_categories "state_name" H1 H2)
    as (He & _ & _ & _ & Harea & Hheat & _).
  split; [exact He|]. split; [apply Harea; by_evaluation|].
  apply Hheat; by_evaluation.
Defined.

(** * Further properties of the script's operations *)

(** ** The filter helper *)

Lemma _f_keeps_row S df col :
  _f S df col = Frame (columns df) (List.filter (keeps_row S df col) (rows df)).
Proof.
  unfold keeps_row. destruct (get_loc col (columns df)) as [i|] eqn:Hi.
  - by apply _f_has.
  - rewrite filter_all by (intros; reflexivity). rewrite frame_eta.
    unfold _f, getitem. by rewrite Hi.
Qed.

Lemma filter_filter_comm {A} (f g : A → bool) (l : list A) :
  List.filter f (List.filter g l) = List.filter g (List.filter f l).
Proof.
  induction l as [|x l IH]; [done|]. simpl.
  destruct (f x) eqn:Hf, (g x) eqn:Hg; simpl; rewrite ?Hf, ?Hg, IH; done.
Qed.

Lemma filter_filter_and {A} (f g : A → bool) (l : list A) :
  List.filter f (List.filter g l) = List.filter (λ x, g x && f x) l.
Proof.
  induction l as [|x l IH]; [done|]. simpl.
  destruct (g x) eqn:Hg; simpl; [|done].
  destruct (f x); by rewrite IH.
Qed.

Lemma filter_filter_idemp {A} (f : A → bool) (l : list A) :
  List.filter f (List.filter f l) = List.filter f l.
Proof.
  apply filter_all. intros x. rewrite elem_of_List_filter. naive_solver.
Qed.

(** X1.  Filtering is idempotent, filters on any two columns can be applied
    in either order, and two selections on one column filter like their
    intersection. *)
Theorem filter_composes (S S' : list string) (df : DataFrame) (col col' : string) :
  _f S (_f S df col) col = _f S df col ∧
  _f S (_f S' df col') col = _f S' (_f S df col) col' ∧
  _f S (_f S' df col) col
    = _f (List.filter (λ s, bool_decide (s ∈ S')) S) df col.
Proof.
  rewrite !_f_keeps_row. simpl. split_and!.
  - f_equal. apply filter_filter_idemp.
  - f_equal. apply filter_filter_comm.
  - f_equal. rewrite filter_filter_and. apply List.filter_ext. intros r.
    unfold keeps_row. simpl. destruct (get_loc col (columns df)) as [i|]; [|done].
    unfold selected. apply eq_true_iff_eq.
    rewrite andb_true_iff, !bool_decide_eq_true, !list_elem_of_fmap.
    setoid_rewrite elem_of_List_filter.
    setoid_rewrite bool_decide_eq_true. split.
    + intros [(s & Hc & Hs) (s' & Hc' & Hs')]. exists s.
      rewrite Hc in Hc'. injection Hc' as <-. done.
    + intros (s & -> & Hs & Hs'). split; by exists s.
Qed.

Lemma _f_ignores_unknown_witness :
  (∀ s c, getitem ex_states "state_name" = Ok s → c ∈ s →
          c ∉ Str <$> ["Atlantis"]) ∧
  _f (["Goa"] ++ ["Atlantis"]) ex_states "state_name"
    = _f ["Goa"] ex_states "state_name".
Proof.
  assert (∀ s c, getitem ex_states "state_name" = Ok s → c ∈ s →
                 c ∉ Str <$> ["Atlantis"]) as H.
  { intros s c [= <-] Hc. revert c Hc. apply Forall_forall.
    repeat constructor; by_evaluation. }
  split; [exact H|]. exact (_f_ignores_unknown _ _ _ _ H).
Defined.

(** ** The valid-value lists *)

(** X3.  When [all_states] is computed it is strictly ascending, hence free
    of duplicates; it holds exactly the strings of the non-missing
    [state_name] entries of the four tables; and combining the tables in
    another order gives the same list. *)
Theorem all_states_catalogue (float_str : Q → string)
    (a b c d : DataFrame) (l : list string) :
  all_states float_str a b c d = Ok l →
  StronglySorted str_below l ∧ NoDup l ∧
  (∀ x, x ∈ l ↔
     ∃ df s e, df ∈ [a; b; c; d] ∧ getitem df "state_name" = Ok s ∧
               e ∈ s ∧ e ≠ NaN ∧ x = astype_str_cell float_str e) ∧
  (∀ a' b' c' d', [a; b; c; d] ≡ₚ [a'; b'; c'; d'] →
     all_states float_str a' b' c' d' = Ok l).
Proof.
  intros Hl. destruct (all_states_sorted _ _ _ _ _ _ Hl) as (H1 & H2 & H3).
  split_and!; [done..|].
  intros a' b' c' d' Hp. by rewrite <- (all_states_order _ _ _ _ _ _ _ _ _ Hp).
Qed.

Lemma all_states_catalogue_witness :
  all_states (λ _, "") ex_states ex_insurance ex_growth ex_engagement
    = Ok ["Assam"; "Goa"] ∧
  all_states (λ _, "") ex_engagement ex_growth ex_insurance ex_states
    = Ok ["Assam"; "Goa"].
Proof.
  assert (all_states (λ _, "") ex_states ex_insurance ex_growth ex_engagement
          = Ok ["Assam"; "Goa"]) as H by (vm_compute; reflexivity).
  split; [exact H|].
  destruct (all_states_catalogue _ _ _ _ _ _ H) as (_ & _ & _ & Hperm).
  apply Hperm.
  apply (Permutation_trans (l' := [ex_engagement; ex_states; ex_insurance; ex_growth])).
  - apply Permutation_sym, Permutation_cons_append with (l := [ex_states; ex_insurance; ex_growth]).
  - apply perm_skip.
    apply (Permutation_trans (l' := [ex_growth; ex_states; ex_insurance])).
    + apply Permutation_sym, Permutation_cons_append with (l := [ex_states; ex_insurance]).
    + apply perm_skip, perm_swap.
Defined.

Lemma state_set_is_Ok float_str df :
  (∃ S, state_set float_str df = Ok S) ↔ has_column "state_name" df.
Proof.
  unfold state_set, getitem, has_column.
  destruct (get_loc "state_name" (columns df)) as [i|] eqn:Hi; simpl.
  - split; [|by eauto]. intros _. apply dec_stable. intros Hn.
    apply get_loc_None in Hn. congruence.
  - apply get_loc_None in Hi. split; [by intros [? ?]|done].
Qed.

(** X4.  [all_states] is computed exactly when each of the four tables has a
    [state_name] column; the only exception it raises is the [KeyError] of
    the missing column. *)
Theorem all_states_outcome (float_str : Q → string) (a b c d : DataFrame) :
  ((∃ l, all_states float_str a b c d = Ok l) ↔
     has_column "state_name" a ∧ has_column "state_name" b ∧
     has_column "state_name" c ∧ has_column "state_name" d) ∧
  (∀ e, all_states float_str a b c d = Raise e → e = KeyError "state_name").
Proof.
  rewrite <- !(state_set_is_Ok float_str). unfold all_states. split.
  - destruct (state_set float_str a) as [Sa|]; simpl; [|naive_solver].
    destruct (state_set float_str b) as [Sb|]; simpl; [|naive_solver].
    destruct (state_set float_str c) as [Sc|]; simpl; [|naive_solver].
    destruct (state_set float_str d) as [Sd|]; simpl; [|naive_solver].
    destruct (py_sorted_str (elements (Sa ∪ Sb ∪ Sc ∪ Sd))) as (l & -> & _).
    naive_solver.
  - intros e.
    destruct (state_set float_str a) as [Sa|] eqn:Ha; simpl;
      [|intros [= <-]; by eapply state_set_Raise].
    destruct (state_set float_str b) as [Sb|] eqn:Hb; simpl;
      [|intros [= <-]; by eapply state_set_Raise].
    destruct (state_set float_str c) as [Sc|] eqn:Hc; simpl;
      [|intros [= <-]; by eapply state_set_Raise].
    destruct (state_set float_str d) as [Sd|] eqn:Hd; simpl;
      [|intros [= <-]; by eapply state_set_Raise].
    by destruct (py_sorted_str (elements (Sa ∪ Sb ∪ Sc ∪ Sd))) as (l & -> & _).
Qed.

Lemma all_states_outcome_witness :
  (has_column "state_name" ex_states ∧ has_column "state_name" ex_insurance ∧
   has_column "state_name" ex_growth ∧ has_column "state_name" ex_engagement) ∧
  (∃ l, all_states (λ _, "") ex_states ex_insurance ex_growth ex_engagement
        = Ok l) ∧
  all_states (λ _, "") ex_states ex_devices ex_growth ex_engagement
    = Raise (KeyError "state_name").
Proof.
  assert (has_column "state_name" ex_states ∧
          has_column "state_name" ex_insurance ∧
          has_column "state_name" ex_growth ∧
          has_column "state_name" ex_engagement) as Hcols
    by (unfold has_column; split_and!; by_evaluation).
  split; [exact Hcols|]. split.
  - exact (proj2 (proj1 (all_states_outcome (λ _, "") ex_states ex_insurance
                           ex_growth ex_engagement)) Hcols).
  - destruct (all_states (λ _, "") ex_states ex_devices ex_growth ex_engagement)
      as [l|e] eqn:H; [by vm_compute in H|].
    f_equal.
    exact (proj2 (all_states_outcome (λ _, "") ex_states ex_devices ex_growth
                    ex_engagement) e H).
Defined.


Lemma py_lt_same_kind a b :
  (is_str a ↔ is_str b) → ∃ r, py_lt a b = Ok r.
Proof. destruct a, b; simpl; try naive_solver; repeat case_match; eauto. Qed.

Lemma py_lt_other_kind a b :
  ¬ (is_str a ↔ is_str b) → py_lt a b = Raise TypeError.
Proof. destruct a, b; simpl; naive_solver. Qed.

Lemma py_insert_same_kind x acc :
  Forall (λ y, is_str x ↔ is_str y) acc → ∃ l, py_insert py_lt x acc = Ok l.
Proof.
  induction 1 as [|y acc Hy _ [l IH]]; simpl; [eauto|].
  destruct (py_lt_same_kind x y Hy) as [[] ->]; simpl; [eauto|].
  rewrite IH. simpl. eauto.
Qed.


Lemma one_kind_cons x l :
  one_kind (x :: l) ↔ Forall (λ y, is_str x ↔ is_str y) l ∧ one_kind l.
Proof.
  unfold one_kind. rewrite !Forall_cons, !Forall_forall.
  destruct (decide (is_str x)); naive_solver.
Qed.

Lemma one_kind_perm l l' : l ≡ₚ l' → one_kind l → one_kind l'.
Proof.
  unfold one_kind. rewrite !Forall_forall. intros Hp.
  setoid_rewrite Hp. done.
Qed.

(** [sorted] over cells ends exactly when the cells are of one kind, all
    strings or none; otherwise the first comparison across kinds raises. *)
Lemma py_sorted_from_cells acc l :
  one_kind acc →
  (one_kind (acc ++ l) → ∃ l', py_sorted_from py_lt acc l = Ok l') ∧
  (¬ one_kind (acc ++ l) → py_sorted_from py_lt acc l = Raise TypeError).
Proof.
  revert acc. induction l as [|x l IH]; intros acc Hacc; simpl.
  - rewrite app_nil_r. split; [eauto|done].
  - destruct (decide (Forall (λ y, is_str x ↔ is_str y) acc)) as [Hx|Hx].
    + destruct (py_insert_same_kind x acc Hx) as [acc' Hi]. rewrite Hi. simpl.
      pose proof (py_insert_perm _ _ _ _ Hi) as Hp.
      assert (one_kind acc') as Hacc'.
      { apply (one_kind_perm (x :: acc)); [done|]. by apply one_kind_cons. }
      assert (one_kind (acc ++ x :: l) ↔ one_kind (acc' ++ l)) as ->.
      { split; apply one_kind_perm.
        - by rewrite Hp, <- Permutation_middle.
        - by rewrite Hp, <- Permutation_middle. }
      by apply IH.
    + assert (¬ one_kind (acc ++ x :: l)) as Hn.
      { intros H. apply Hx. apply (one_kind_perm _ (x :: acc ++ l)) in H;
          [|by rewrite <- Permutation_middle].
        apply one_kind_cons in H as [H _]. by apply Forall_app in H as [? _]. }
      split; [done|]. intros _.
      destruct acc as [|y acc]; [by destruct Hx|]. simpl.
      rewrite py_lt_other_kind; [done|]. intros Hxy. apply Hx.
      apply one_kind_cons in Hacc as [Hy _].
      constructor; [done|]. eapply Forall_impl; [exact Hy|]. naive_solver.
Qed.

Lemma py_insert_Str x l :
  py_insert py_lt (Str x) (Str <$> l) =
  match py_insert str_lt x l with
  | Ok l' => Ok (Str <$> l')
  | Raise e => Raise e
  end.
Proof.
  induction l as [|y l IH]; [done|]. csimpl.
  destruct (String.ltb x y); csimpl; [done|].
  rewrite IH. by destruct (py_insert str_lt x l).
Qed.

Lemma py_sorted_from_Str acc l :
  py_sorted_from py_lt (Str <$> acc) (Str <$> l) =
  match py_sorted_from str_lt acc l with
  | Ok l' => Ok (Str <$> l')
  | Raise e => Raise e
  end.
Proof.
  revert acc. induction l as [|x l IH]; intros acc; [done|]. csimpl.
  rewrite py_insert_Str. destruct (py_insert str_lt x acc); csimpl; [|done].
  apply IH.
Qed.

Lemma nan_among_numbers_true l :
  nan_among_numbers l = true → Forall (λ c, ¬ is_str c) l ∧ NaN ∈ l.
Proof.
  unfold nan_among_numbers.
  intros [[H1 H2]%andb_prop _]%andb_prop.
  apply bool_decide_eq_true in H1, H2. done.
Qed.

(** X5.  [all_categories] reads the column as an attribute and raises
    [AttributeError] when the table has no [category_name]; on a column of
    one kind (all strings, or no string) it returns the distinct entries; on
    a column that mixes strings with other entries, such as a missing one, it
    raises [TypeError]; on a column of strings the list is strictly
    ascending. *)
Theorem all_categories_outcome (nan_sort : list_sort) (df : DataFrame) :
  (¬ has_column "category_name" df →
     all_categories nan_sort df = Raise (AttributeError "category_name")) ∧
  (∀ s, getitem df "category_name" = Ok s →
     (one_kind s → ∃ l, all_categories nan_sort df = Ok l ∧ l ≡ₚ unique s) ∧
     (¬ one_kind s → all_categories nan_sort df = Raise TypeError) ∧
     (Forall is_str s →
        ∃ ls, all_categories nan_sort df = Ok (Str <$> ls) ∧
              StronglySorted str_below ls ∧ ∀ x, x ∈ ls ↔ Str x ∈ s)).
Proof.
  split.
  - intros Hc. apply get_loc_None in Hc. unfold all_categories, getattr.
    by rewrite Hc.
  - intros s Hs. apply getattr_Ok in Hs.
    unfold all_categories. rewrite Hs. simpl.
    assert (one_kind (unique s) ↔ one_kind s) as Hkind.
    { unfold one_kind. rewrite !Forall_forall.
      by setoid_rewrite elem_of_unique. }
    unfold sorted_cells.
    destruct (nan_among_numbers (unique s)) eqn:Hnan.
    { apply nan_among_numbers_true in Hnan as [Hnum Hin]. split_and!.
      - intros _. eexists. split; [done|]. apply (proj2_sig (nan_sort _)).
      - intros Hmix. destruct Hmix. apply Hkind. by right.
      - intros Hstr. rewrite elem_of_unique in Hin.
        rewrite Forall_forall in Hstr. by destruct (Hstr _ Hin). }
    destruct (py_sorted_from_cells [] (unique s)) as [Hok Hraise].
    { left. constructor. }
    simpl in Hok, Hraise. split_and!.
    + intros Hone. destruct Hok as [l Hl]; [by apply Hkind|].
      exists l. split; [done|]. by apply py_sorted_perm in Hl.
    + intros Hmix. apply Hraise. by rewrite Hkind.
    + intros Hstr.
      assert (Forall is_str (unique s)) as [ls1 Hls1]%Forall_is_str.
      { rewrite Forall_forall in Hstr. apply Forall_forall.
        intros c Hc. rewrite elem_of_unique in Hc. auto. }
      destruct (py_sorted_str ls1) as (ls & Hsort & Hsorted & Hperm).
      exists ls. unfold py_sorted in *. rewrite Hls1.
      change [] with (Str <$> @nil string) at 1.
      rewrite py_sorted_from_Str, Hsort. split_and!; [done| |].
      * apply StronglySorted_le_NoDup; [done|]. rewrite Hperm.
        apply (NoDup_fmap_1 Str). rewrite <- Hls1. apply NoDup_unique.
      * intros x. rewrite Hperm, <- (elem_of_unique s), Hls1.
        rewrite list_elem_of_fmap. naive_solver.
Qed.

Lemma all_categories_outcome_witness :
  ¬ has_column "category_name" ex_states ∧
  all_categories keep_order ex_states = Raise (AttributeError "category_name") ∧
  getitem ex_mixed_category "category_name" = Ok [Str "Recharge"; NaN] ∧
  ¬ one_kind [Str "Recharge"; NaN] ∧
  all_categories keep_order ex_mixed_category = Raise TypeError ∧
  Forall is_str [Str "Recharge"; Str "Financial"] ∧
  ∃ ls, all_categories keep_order ex_categories = Ok (Str <$> ls).
Proof.
  assert (¬ has_column "category_name" ex_states) as Hno
    by (unfold has_column; by_evaluation).
  assert (getitem ex_mixed_category "category_name" = Ok [Str "Recharge"; NaN])
    as Hs by reflexivity.
  assert (¬ one_kind [Str "Recharge"; NaN]) as Hk
    by (unfold one_kind; by_evaluation).
  assert (getitem ex_categories "category_name"
          = Ok [Str "Recharge"; Str "Financial"]) as Hs' by reflexivity.
  assert (Forall is_str [Str "Recharge"; Str "Financial"]) as Hstr
    by by_evaluation.
  split; [exact Hno|]. split.
  { exact (proj1 (all_categories_outcome keep_order ex_states) Hno). }
  split; [exact Hs|]. split; [exact Hk|]. split.
  - destruct (all_categories_outcome keep_order ex_mixed_category) as [_ H].
    destruct (H _ Hs) as (_ & Hmixed & _). exact (Hmixed Hk).
  - split; [exact Hstr|].
    destruct (all_categories_outcome keep_order ex_categories) as [_ H].
    destruct (H _ Hs') as (_ & _ & Hsorted).
    destruct (Hsorted Hstr) as (ls & Hls & _). by exists ls.
Defined.

(** ** Binning *)












(** ** Shape and cells of the reshaped views *)

Lemma sort_keys_sorted ks : Sorted key_le (sort_keys ks) ∧ NoDup (sort_keys ks).
Proof.
  split.
  - apply Sorted_merge_sort, _.
  - unfold sort_keys. rewrite merge_sort_Permutation. apply NoDup_unique.
Qed.

Lemma unstack_shape fill_value s : grid_shape (unstack fill_value s).
Proof.
  unfold grid_shape, unstack. simpl.
  rewrite length_fmap. split_and!; try apply sort_keys_sorted; [done|].
  apply Forall_fmap, Forall_forall. intros r _. simpl. by rewrite length_fmap.
Qed.

Section shape_facts.
Variable float_sum : list Q → Q.

Lemma agg_all_keys gs agg : agg_all float_sum gs = Ok agg → agg.*1 = gs.*1.
Proof.
  revert agg. induction gs as [|[k vs] gs IH]; intros agg; simpl.
  - by intros [= <-].
  - intros (v & _ & (rest & Hrest & [= <-])%bind_Ok)%bind_Ok.
    simpl. f_equal. by apply IH.
Qed.

Lemma groupby_keys_valid ts k : k ∈ (groupby ts).*1 → valid_key k ∧ k ∈ ts.*1.
Proof.
  intros Hk%assoc_is_Some.
  destruct (decide (valid_key k)) as [Hv|Hv].
  - split; [done|]. rewrite (assoc_groupby _ _ Hv) in Hk.
    destruct (vals_of k ts) as [|x xs] eqn:E; [by destruct Hk as [? [=]]|].
    assert (x ∈ vals_of k ts) as Hx by (rewrite E; left).
    unfold vals_of in Hx. apply list_elem_of_fmap in Hx as ([k' x'] & _ & Ht).
    apply elem_of_List_filter in Ht as [Ht Hk'].
    apply bool_decide_eq_true in Hk'. simpl in Hk'. subst k'.
    apply list_elem_of_fmap. by exists (k, x').
  - unfold groupby in Hk. rewrite (assoc_foldl_group_step_invalid _ _ _ Hv) in Hk.
    by destruct Hk as [? [=]].
Qed.

Lemma grid_at_is_Some fill_value s r k :
  is_Some (grid_at (unstack fill_value s) r k) ↔
  r ∈ grid_index (unstack fill_value s) ∧ k ∈ grid_columns (unstack fill_value s).
Proof.
  rewrite grid_at_unstack. simpl. rewrite !elem_of_sort_keys.
  case_decide; [|split; [by intros [? [=]]|done]]. split; [done|eauto].
Qed.

Lemma unstack_no_missing fill_value s :
  (∀ k, k ∈ s.*1 → valid_key k) →
  (NaN ∉ grid_index (unstack fill_value s)) ∧
  (NaN ∉ grid_columns (unstack fill_value s)).
Proof.
  intros Hvalid. simpl. rewrite !elem_of_sort_keys.
  split; intros ([r k] & E & [H1 H2]%Hvalid)%list_elem_of_fmap;
    simpl in *; subst; done.
Qed.

Lemma grouped_is_unstack df index columns values g :
  pivot_table float_sum df index columns values = Ok g ∨
  groupby_sum_unstack float_sum df index columns values = Ok g →
  ∃ fv s, g = unstack fv s ∧ ∀ k, k ∈ s.*1 → valid_key k.
Proof.
  intros [Hg|Hg].
  - unfold pivot_table in Hg.
    apply bind_Ok in Hg as (v & _ & (i & _ & (c & _ &
      (agg & Hagg & [= <-])%bind_Ok)%bind_Ok)%bind_Ok).
    exists None, agg. split; [done|]. intros k.
    rewrite (agg_all_keys _ _ Hagg). apply groupby_keys_valid.
  - unfold groupby_sum_unstack in Hg.
    apply bind_Ok in Hg as (i & _ & (c & _ & (v & _ &
      (agg & Hagg & [= <-])%bind_Ok)%bind_Ok)%bind_Ok).
    exists (Some (Int 0)), agg. split; [done|]. intros k.
    rewrite (agg_all_keys _ _ Hagg). apply groupby_keys_valid.
Qed.

Lemma pivot_is_unstack df index columns values g :
  pivot df index columns values = Ok g → ∃ fv s, g = unstack fv s.
Proof.
  unfold pivot.
  intros (i & _ & (c & _ & (v & _ & Hg)%bind_Ok)%bind_Ok)%bind_Ok.
  case_decide; [|done]. injection Hg as <-. eauto.
Qed.

(** X8.  Every reshaped view is a full rectangle: one line per row key and
    one cell per column key, the keys ascending and distinct, and a cell is
    found exactly at the pairs of a row key and a column key.  The grouping
    views ([pivot_table], [groupby] ... [unstack]) have no missing key. *)
Theorem reshaped_grid_shape (df : DataFrame) (index columns values : string)
    (g : Grid) :
  pivot_table float_sum df index columns values = Ok g ∨
  groupby_sum_unstack float_sum df index columns values = Ok g ∨
  pivot df index columns values = Ok g →
  grid_shape g ∧
  (∀ r k, is_Some (grid_at g r k) ↔ r ∈ grid_index g ∧ k ∈ grid_columns g) ∧
  (pivot_table float_sum df index columns values = Ok g ∨
   groupby_sum_unstack float_sum df index columns values = Ok g →
     (NaN ∉ grid_index g) ∧ (NaN ∉ grid_columns g)).
Proof.
  intros Hg.
  assert (∃ fv s, g = unstack fv s) as (fv & s & Hgs).
  { destruct Hg as [Hg|[Hg|Hg]].
    - destruct (grouped_is_unstack _ _ _ _ _ (or_introl Hg)) as (? & ? & ? & _).
      eauto.
    - destruct (grouped_is_unstack _ _ _ _ _ (or_intror Hg)) as (? & ? & ? & _).
      eauto.
    - by eapply pivot_is_unstack. }
  split_and!.
  - rewrite Hgs. apply unstack_shape.
  - intros r k. rewrite Hgs. apply grid_at_is_Some.
  - intros (fv' & s' & -> & Hvalid)%grouped_is_unstack.
    by apply unstack_no_missing.
Qed.

End shape_facts.

Lemma reshaped_grid_shape_witness :
  (pivot_table exact_sum ex_states "state_name" "quarter" "total_transactions"
     = Ok {| grid_index := [Str "Assam"; Str "Goa"];
             grid_columns := [Int 1; Int 4];
             grid_values := [[Float 7; NaN]; [Float 9; Float 5]] |} ∨
   groupby_sum_unstack exact_sum ex_states "state_name" "quarter" "total_transactions"
     = Ok {| grid_index := [Str "Assam"; Str "Goa"];
             grid_columns := [Int 1; Int 4];
             grid_values := [[Float 7; NaN]; [Float 9; Float 5]] |} ∨
   pivot ex_states "state_name" "quarter" "total_transactions"
     = Ok {| grid_index := [Str "Assam"; Str "Goa"];
             grid_columns := [Int 1; Int 4];
             grid_values := [[Float 7; NaN]; [Float 9; Float 5]] |}) ∧
  grid_shape {| grid_index := [Str "Assam"; Str "Goa"];
                grid_columns := [Int 1; Int 4];
                grid_values := [[Float 7; NaN]; [Float 9; Float 5]] |}.
Proof.
  assert (pivot_table exact_sum ex_states "state_name" "quarter" "total_transactions"
     = Ok {| grid_index := [Str "Assam"; Str "Goa"];
             grid_columns := [Int 1; Int 4];
             grid_values := [[Float 7; NaN]; [Float 9; Float 5]] |}) as H
    by (vm_compute; reflexivity).
  split; [left; exact H|].
  exact (proj1 (reshaped_grid_shape _ _ _ _ _ _ (or_introl H))).
Defined.

Lemma getitem_Raise df col e :
  getitem df col = Raise e ↔ ¬ has_column col df ∧ e = KeyError col.
Proof.
  unfold getitem, has_column.
  destruct (get_loc col (columns df)) as [i|] eqn:Hi.
  - split; [done|]. intros [Hn _]. apply get_loc_None in Hn. congruence.
  - apply get_loc_None in Hi. split; [by intros [= <-]|by intros [_ ->]].
Qed.

Lemma getitem_has df col : has_column col df → ∃ s, getitem df col = Ok s.
Proof.
  intros [i Hi]%get_loc_Some. unfold getitem. rewrite Hi. eauto.
Qed.





Section sum_outcome_facts.
Variable float_sum : list Q → Q.

Lemma cell_add_Raise a b e : cell_add float_sum a b = Raise e → e = TypeError.
Proof.
  destruct a, b; simpl; try (by intros [= <-]); try done;
    repeat case_match; by intros [= <-].
Qed.

Lemma cell_add_number a b :
  ¬ is_str a → ¬ is_str b → ∃ c, cell_add float_sum a b = Ok c ∧ ¬ is_str c.
Proof.
  destruct a, b; simpl; try done; intros _ _; repeat case_match; eauto.
Qed.

Lemma sum_from_Raise acc vs e : sum_from float_sum acc vs = Raise e → e = TypeError.
Proof.
  revert acc. induction vs as [|v vs IH]; intros acc; simpl; [done|].
  destruct (cell_add float_sum acc v) as [acc'|e'] eqn:Ha; simpl; [apply IH|].
  intros [= <-]. by eapply cell_add_Raise.
Qed.

Lemma sum_from_number acc vs :
  ¬ is_str acc → Forall (λ c, ¬ is_str c) vs → ∃ c, sum_from float_sum acc vs = Ok c.
Proof.
  intros Hacc Hvs. revert acc Hacc.
  induction Hvs as [|v vs Hv _ IH]; intros acc Hacc; simpl; [eauto|].
  destruct (cell_add_number acc v Hacc Hv) as (c & -> & Hc). simpl. by apply IH.
Qed.

Lemma agg_sum_Raise vs e : agg_sum float_sum vs = Raise e → e = TypeError.
Proof.
  unfold agg_sum. destruct (dropna vs) as [|v l]; [done|].
  destruct (_ && _); [done|].
  destruct (forallb is_int (v :: l)); apply sum_from_Raise.
Qed.

Lemma agg_sum_number vs : Forall (λ c, ¬ is_str c) vs → ∃ c, agg_sum float_sum vs = Ok c.
Proof.
  intros Hvs. unfold agg_sum.
  assert (Forall (λ c, ¬ is_str c) (dropna vs)) as Hd.
  { rewrite Forall_forall in Hvs. apply Forall_forall. intros c Hc.
    apply elem_of_List_filter in Hc as [Hc _]. auto. }
  destruct (dropna vs) as [|v vs']; [eauto|].
  destruct (_ && _); [eauto|].
  destruct (forallb is_int (v :: vs'));
    [apply sum_from_number; [simpl; tauto|exact Hd]|].
  apply Forall_cons in Hd as [Hv Hvs']. by apply sum_from_number.
Qed.

Lemma agg_all_Raise gs e : agg_all float_sum gs = Raise e → e = TypeError.
Proof.
  induction gs as [|[k vs] gs IH]; simpl; [done|].
  destruct (agg_sum float_sum vs) as [v|e'] eqn:Hv; simpl.
  - destruct (agg_all float_sum gs) as [rest|e'']; simpl; [done|].
    intros [= <-]. by apply IH.
  - intros [= <-]. by eapply agg_sum_Raise.
Qed.

Lemma agg_all_number gs :
  Forall (λ kv, Forall (λ c, ¬ is_str c) kv.2) gs → ∃ agg, agg_all float_sum gs = Ok agg.
Proof.
  induction 1 as [|[k vs] gs Hvs _ [rest IH]]; simpl; [eauto|].
  destruct (agg_sum_number vs Hvs) as [v ->]. simpl. rewrite IH. simpl. eauto.
Qed.

Lemma group_add_Forall (P : cell → Prop) k v gs :
  P v → Forall (λ kv : key2 * list cell, Forall P kv.2) gs →
  Forall (λ kv : key2 * list cell, Forall P kv.2) (group_add k v gs).
Proof.
  intros Hv. induction 1 as [|[k' vs] gs Hvs Hgs IH]; simpl.
  - repeat constructor. done.
  - case_decide; constructor; simpl; auto.
    apply Forall_app. split; [done|]. by constructor.
Qed.

Lemma groupby_Forall (P : cell → Prop) ts :
  Forall (λ t : key2 * cell, P t.2) ts →
  Forall (λ kv : key2 * list cell, Forall P kv.2) (groupby ts).
Proof.
  unfold groupby. intros Hts.
  assert (Forall (λ kv : key2 * list cell, Forall P kv.2) []) as Hgs
    by constructor.
  revert Hgs. generalize (@nil (key2 * list cell)).
  induction Hts as [|t ts Ht _ IH]; intros gs Hgs; simpl; [done|].
  apply IH. unfold group_step.
  destruct (isna t.1.1 || isna t.1.2); [done|]. by apply group_add_Forall.
Qed.

Lemma triples_values (P : cell → Prop) i c v :
  Forall P v → Forall (λ t : key2 * cell, P t.2) (triples i c v).
Proof.
  intros Hv. apply Forall_forall. intros [k x] Hin. simpl.
  unfold triples in Hin. apply elem_of_zip_r in Hin.
  rewrite Forall_forall in Hv. auto.
Qed.

(** X10.  What the two grouping views can raise: the [KeyError] of a column
    the table lacks (the value column first for [pivot_table], the first
    group key first for [groupby]), or [TypeError] when a group mixes strings
    with numbers; with the three columns present and no string among the
    values both views are computed. *)
Theorem reshape_outcome (df : DataFrame) (idx col vals : string) :
  (¬ has_column vals df → pivot_table float_sum df idx col vals = Raise (KeyError vals)) ∧
  (¬ has_column idx df →
     groupby_sum_unstack float_sum df idx col vals = Raise (KeyError idx)) ∧
  (∀ e, pivot_table float_sum df idx col vals = Raise e ∨
        groupby_sum_unstack float_sum df idx col vals = Raise e →
     e = TypeError ∨
     ∃ k, k ∈ [idx; col; vals] ∧ ¬ has_column k df ∧ e = KeyError k) ∧
  (∀ sv, has_column idx df → has_column col df →
         getitem df vals = Ok sv → Forall (λ c, ¬ is_str c) sv →
     (∃ g, pivot_table float_sum df idx col vals = Ok g) ∧
     (∃ g, groupby_sum_unstack float_sum df idx col vals = Ok g)).
Proof.
  unfold pivot_table, groupby_sum_unstack. split_and!.
  - intros Hv. assert (getitem df vals = Raise (KeyError vals)) as ->; [|done].
    by apply getitem_Raise.
  - intros Hi. assert (getitem df idx = Raise (KeyError idx)) as ->; [|done].
    by apply getitem_Raise.
  - intros e.
    destruct (getitem df idx) as [i|ei] eqn:Hi,
      (getitem df col) as [c|ec] eqn:Hc,
      (getitem df vals) as [v|ev] eqn:Hv; simpl;
      try apply getitem_Raise in Hi as [Hi ->];
      try apply getitem_Raise in Hc as [Hc ->];
      try apply getitem_Raise in Hv as [Hv ->];
      try (intros [[= <-]|[= <-]]; right;
           first [ exists idx; split_and!; [set_solver|done|done]
                 | exists col; split_and!; [set_solver|done|done]
                 | exists vals; split_and!; [set_solver|done|done] ]).
    destruct (agg_all float_sum _) as [agg|e'] eqn:Hagg; simpl; [by intros [|]|].
    apply agg_all_Raise in Hagg as ->. intros [[= <-]|[= <-]]; by left.
  - intros sv [i Hi]%getitem_has [c Hc]%getitem_has Hv Hnum.
    rewrite Hi, Hc, Hv. simpl.
    destruct (agg_all_number (groupby (triples i c sv))) as [agg ->].
    { apply (groupby_Forall (λ c, ¬ is_str c)).
      by apply (triples_values (λ c, ¬ is_str c)). }
    simpl. eauto.
Qed.

End sum_outcome_facts.

Lemma reshape_outcome_witness :
  ¬ has_column "total_value" ex_states ∧
  pivot_table exact_sum ex_states "state_name" "quarter" "total_value"
    = Raise (KeyError "total_value") ∧
  has_column "state_name" ex_states ∧ has_column "quarter" ex_states ∧
  getitem ex_states "total_amount" = Ok [Int 50; Int 70; Int 90] ∧
  Forall (λ c, ¬ is_str c) [Int 50; Int 70; Int 90] ∧
  ∃ g, groupby_sum_unstack exact_sum ex_states "quarter" "state_name" "total_amount"
       = Ok g.
Proof.
  assert (¬ has_column "total_value" ex_states) as Hno
    by (unfold has_column; by_evaluation).
  assert (has_column "state_name" ex_states) as Hs
    by (unfold has_column; by_evaluation).
  assert (has_column "quarter" ex_states) as Hq
    by (unfold has_column; by_evaluation).
  assert (getitem ex_states "total_amount" = Ok [Int 50; Int 70; Int 90])
    as Hv by reflexivity.
  assert (Forall (λ c, ¬ is_str c) [Int 50; Int 70; Int 90]) as Hnum
    by by_evaluation.
  split; [exact Hno|]. split.
  - exact (proj1 (reshape_outcome exact_sum ex_states "state_name" "quarter"
                    "total_value") Hno).
  - split_and!; [done..|].
    destruct (reshape_outcome exact_sum ex_states "quarter" "state_name"
                "total_amount") as (_ & _ & _ & Htotal).
    exact (proj2 (Htotal _ Hq Hs Hv Hnum)).
Defined.

(** ** Sorting *)

Lemma sort_cmp_antisym ascending a b :
  sort_cmp ascending b a = CompOpp (sort_cmp ascending a b).
Proof.
  assert (∀ c, (if ascending then CompOpp c else CompOpp (CompOpp c))
               = CompOpp (if ascending then c else CompOpp c)) as Hdir
    by (intros c; by destruct ascending).
  destruct a as [|s|x|x], b as [|t|y|y]; simpl; try done;
    try (by destruct ascending);
    try (by rewrite <- Qcompare_antisym, Hdir).
  by rewrite (String.compare_antisym t s), Hdir.
Qed.

Lemma rows_cmp_antisym ascending by_ r1 r2 :
  rows_cmp ascending by_ r2 r1 = CompOpp (rows_cmp ascending by_ r1 r2).
Proof.
  induction by_ as [|i by_ IH]; [done|]. simpl.
  rewrite (sort_cmp_antisym ascending (cell_at i r1) (cell_at i r2)).
  by destruct (sort_cmp ascending (cell_at i r1) (cell_at i r2)).
Qed.

Global Instance rows_le_total ascending by_ : Total (rows_le ascending by_).
Proof.
  intros r1 r2. unfold rows_le. rewrite (rows_cmp_antisym _ _ r1 r2).
  destruct (rows_cmp ascending by_ r1 r2); simpl; auto.
Qed.






(** ** Assigning a column *)

Lemma get_loc_lookup col cols i : get_loc col cols = Some i → cols !! i = Some col.
Proof.
  revert i. induction cols as [|c cs IH]; intros i; simpl; [done|].
  case_decide as Hc.
  - intros [= <-]. by subst.
  - destruct (get_loc col cs) as [j|]; simpl; [|done].
    intros [= <-]. by apply IH.
Qed.

Lemma get_loc_app_l col cols more i :
  get_loc col cols = Some i → get_loc col (cols ++ more) = Some i.
Proof.
  revert i. induction cols as [|c cs IH]; intros i; simpl; [done|].
  case_decide; [done|].
  destruct (get_loc col cs) as [j|]; simpl; [|done].
  intros [= <-]. by rewrite (IH j eq_refl).
Qed.

Lemma get_loc_app_other col col' cols :
  col' ≠ col → get_loc col' cols = None → get_loc col' (cols ++ [col]) = None.
Proof.
  intros Hne. rewrite !get_loc_None, elem_of_app, list_elem_of_singleton.
  naive_solver.
Qed.

Lemma fmap_zip_with_l_Forall {A B C D} (P : A → Prop) (f : A → B → C)
    (g : C → D) (g' : A → D) l k :
  Forall P l → (∀ x y, P x → g (f x y) = g' x) → length l ≤ length k →
  g <$> zip_with f l k = g' <$> l.
Proof.
  intros Hl Hg. revert k. induction Hl as [|x l Hx Hl IH]; intros [|y k] Hlen;
    simpl in *; try done; try lia.
  rewrite Hg by done. f_equal. apply IH. lia.
Qed.

(** X12.  Assigning a column to a well-formed table, one value per row:
    reading the column back gives the values, every other column reads as
    before, the row labels and their order are kept, and the table stays
    well formed; a new column goes last. *)
Theorem setitem_reads_back (df : DataFrame) (col : string) (vals : list cell) :
  wf_frame df →
  length vals = length (rows df) →
  getitem (setitem df col vals) col = Ok vals ∧
  (∀ col', col' ≠ col →
     getitem (setitem df col vals) col' = getitem df col') ∧
  label <$> rows (setitem df col vals) = label <$> rows df ∧
  wf_frame (setitem df col vals) ∧
  columns (setitem df col vals)
    = (if decide (col ∈ columns df) then columns df else columns df ++ [col]).
Proof.
  intros Hwf Hlen. split; [by apply getitem_setitem|].
  unfold setitem, getitem, wf_frame in *.
  destruct (get_loc col (columns df)) as [p|] eqn:Hp; simpl.
  - split_and!.
    + intros col' Hne.
      destruct (get_loc col' (columns df)) as [j|] eqn:Hj; [|done]. f_equal.
      apply (fmap_zip_with_l_Forall _ _ _ _ _ _ Hwf); [|lia].
      intros r v _. unfold cell_at. simpl.
      rewrite list_lookup_insert_ne; [done|]. intros ->.
      apply get_loc_lookup in Hp, Hj. congruence.
    + apply (fmap_zip_with_l_Forall (λ _, True)); [by apply Forall_true|done|lia].
    + apply Forall_forall. intros r' (r & v & -> & Hr & _)%elem_of_zip_with.
      simpl. rewrite length_insert. rewrite Forall_forall in Hwf. auto.
    + rewrite decide_True; [done|]. apply dec_stable. intros Hn.
      apply get_loc_None in Hn. congruence.
  - split_and!.
    + intros col' Hne.
      destruct (get_loc col' (columns df)) as [j|] eqn:Hj.
      * rewrite (get_loc_app_l _ _ _ _ Hj). f_equal.
        apply (fmap_zip_with_l_Forall _ _ _ _ _ _ Hwf); [|lia].
        intros r v Hr. unfold cell_at. simpl.
        rewrite lookup_app_l; [done|]. rewrite Hr. by eapply get_loc_lt.
      * by rewrite (get_loc_app_other _ _ _ Hne Hj).
    + apply (fmap_zip_with_l_Forall (λ _, True)); [by apply Forall_true|done|lia].
    + apply Forall_forall. intros r' (r & v & -> & Hr & _)%elem_of_zip_with.
      simpl. rewrite !length_app. simpl. rewrite Forall_forall in Hwf.
      by rewrite (Hwf r Hr).
    + apply get_loc_None in Hp. by rewrite decide_False.
Qed.

Lemma setitem_reads_back_witness :
  wf_frame ex_devices ∧
  length [Str "Low"; Str "High"] = length (rows ex_devices) ∧
  getitem (setitem ex_devices "usage_tier" [Str "Low"; Str "High"]) "usage_tier"
    = Ok [Str "Low"; Str "High"].
Proof.
  assert (wf_frame ex_devices) as Hwf by (repeat constructor).
  split; [exact Hwf|]. split; [reflexivity|].
  exact (proj1 (setitem_reads_back ex_devices "usage_tier"
                  [Str "Low"; Str "High"] Hwf eq_refl)).
Defined.

(** ** The display string of a year and a quarter *)

Lemma append_cons c s t : String c s +:+ t = String c (s +:+ t).
Proof. reflexivity. Qed.

Lemma append_nil t : "" +:+ t = t.
Proof. reflexivity. Qed.

Lemma uint_str_no_Q d :
  mentions letter_Q (DecimalString.NilEmpty.string_of_uint d) = false.
Proof. induction d; simpl; try done; by rewrite IHd. Qed.

Lemma int_str_no_Q z : mentions letter_Q (int_str z) = false.
Proof.
  unfold int_str, DecimalString.NilZero.string_of_int,
    DecimalString.NilZero.string_of_uint.
  destruct (Z.to_int z) as [d|d]; destruct d; simpl; try done;
    by rewrite uint_str_no_Q.
Qed.

Lemma to_int_not_nil z :
  Z.to_int z ≠ Decimal.Pos Decimal.Nil ∧ Z.to_int z ≠ Decimal.Neg Decimal.Nil.
Proof.
  destruct z as [|p|p]; simpl; split; try done; intros [= H];
    by apply DecimalPos.Unsigned.to_uint_nonnil in H.
Qed.

Lemma int_str_inj a b : int_str a = int_str b → a = b.
Proof.
  unfold int_str. intros H. apply DecimalZ.to_int_inj.
  destruct (to_int_not_nil a) as [Ha1 Ha2], (to_int_not_nil b) as [Hb1 Hb2].
  pose proof (DecimalString.NilZero.isi _ Ha1 Ha2) as Ea.
  pose proof (DecimalString.NilZero.isi _ Hb1 Hb2) as Eb.
  rewrite H in Ea. congruence.
Qed.

(** A string without "Q" before the separator "-Q" is determined by the
    whole. *)
Lemma split_at_Q s1 s2 t1 t2 :
  mentions letter_Q s1 = false → mentions letter_Q s2 = false →
  s1 +:+ "-Q" +:+ t1 = s2 +:+ "-Q" +:+ t2 → s1 = s2 ∧ t1 = t2.
Proof.
  revert s2. induction s1 as [|c1 s1 IH]; intros [|c2 s2]; simpl.
  - intros _ _. repeat (rewrite append_cons || rewrite append_nil).
    by intros [= ->].
  - intros _ [_ Hs]%orb_false_elim.
    repeat (rewrite append_cons || rewrite append_nil).
    intros [= <- H]. destruct s2 as [|c3 s2];
      repeat (rewrite append_cons in H || rewrite append_nil in H); [done|].
    injection H as <- _. by simpl in Hs.
  - intros [_ Hs]%orb_false_elim _.
    repeat (rewrite append_cons || rewrite append_nil).
    intros [= -> H]. destruct s1 as [|c3 s1];
      repeat (rewrite append_cons in H || rewrite append_nil in H); [done|].
    injection H as -> _. by simpl in Hs.
  - intros [_ H1]%orb_false_elim [_ H2]%orb_false_elim. rewrite !append_cons.
    intros [= -> H]. destruct (IH s2 H1 H2 H) as [-> ->]. done.
Qed.

(** X13.  The display string determines the year and the quarter: two rows
    with integer years and quarters get the same [time] entry exactly when
    they have the same year and the same quarter, so the area pivot never
    puts two different quarters on one point of the axis. *)
Theorem time_key_injective (float_str : Q → string) (y q y' q' : Z) :
  time_key float_str (Int y) (Int q) = time_key float_str (Int y') (Int q')
  ↔ y = y' ∧ q = q'.
Proof.
  split; [|by intros [-> ->]].
  unfold time_key. simpl. intros [= H].
  apply split_at_Q in H as [Hy Hq]; [|apply int_str_no_Q..].
  split; by apply int_str_inj.
Qed.
